(** * SmartPlate AI: the recognition controller and its scan history

    A shallow embedding of [src/App.tsx], [src/services/geminiService.ts]
    and the two interfaces of [types.ts].

    The program is TypeScript running on React.  Its annotations are erased
    when it runs, and the two places where data enters, [JSON.parse] on the
    stored history and [JSON.parse] on the service's reply, are typed [any]:
    the values the program holds are therefore modelled as JavaScript
    values, not as the records the annotations promise.

    What is outside the program is taken as an input of the model:
    - the clock ([Date.now()]): each reading is an integer given with the
      event that reads it;
    - the recognition service: what the awaited call yields is given with
      the event at which the call settles;
    - [window.confirm] and [FileReader]: their answer is given with the event;
    - [localStorage]: the one entry the program uses, absent or a string;
      quota and access failures are not modelled;
    - [JSON]: a pair of functions, the class [JSON] below; theorems hold for
      every such pair, and [RefJSON] is one to compute with.

    Of React the model keeps what the program relies on: the setters called
    in a handler or an effect are queued and applied, in order, at the next
    render; an effect runs after the first render and after each render in
    which one of its dependencies differs.  The double run of effects that
    the development build makes under [StrictMode] is not modelled.  The
    view is modelled only as far as it decides which controls exist; that
    rendering can itself throw, on a stored history that is no array of
    scan records, is left out. *)

From Stdlib Require Import List String Ascii ZArith Lia Bool.
From Stdlib Require Import DecimalString DecimalFacts DecimalZ.
Import ListNotations.
Local Open Scope string_scope.
Set Warnings "-register-all".

(** ** JavaScript values *)

(** The values that [JSON.parse] builds, and [undefined], which reading a
    missing property yields.  A number is written [JNum m e] for
    [m * 10^e]; the program itself only makes clock readings, [JNum t 0].
    An object is the list of its own properties in insertion order; its
    keys are distinct in every object that [JSON.parse] or the program
    builds. *)
Inductive JSValue : Type :=
| JUndefined
| JNull
| JBool (b : bool)
| JNum (m e : Z)
| JStr (s : string)
| JArr (items : list JSValue)
| JObj (props : list (string * JSValue)).

(** What a [throw] carries. *)
Inductive exn : Type :=
| Error (message : string)
| SyntaxError
| TypeError
| Rejected.

(** A computation that returns or throws. *)
Inductive outcome (A : Type) : Type :=
| Ok (a : A)
| Throw (e : exn).
Arguments Ok {A} a.
Arguments Throw {A} e.

Definition bind {A B : Type} (x : outcome A) (k : A -> outcome B) : outcome B :=
  match x with
  | Ok a => k a
  | Throw e => Throw e
  end.

Notation "x <- c ;; k" := (bind c (fun x => k))
  (at level 61, c at next level, right associativity).

(** [!s] for a string or [null]: only [null] and the empty string are falsy. *)
Definition falsy (s : option string) : bool :=
  match s with
  | None => true
  | Some t => t =? ""
  end.

Fixpoint lookup (k : string) (props : list (string * JSValue)) : JSValue :=
  match props with
  | [] => JUndefined
  | (k', v) :: rest => if k' =? k then v else lookup k rest
  end.

(** [v.name], for the property names this program reads ([id] and the
    seven reply fields): none of them is defined on a prototype, so a
    string, number, boolean or array has it [undefined]; reading from
    [null] or [undefined] is a TypeError. *)
Definition getProp (v : JSValue) (name : string) : outcome JSValue :=
  match v with
  | JUndefined | JNull => Throw TypeError
  | JObj props => Ok (lookup name props)
  | _ => Ok JUndefined
  end.

(** [v !== s] where [s] is a string: equal only to that same string. *)
Definition strict_neq_string (v : JSValue) (s : string) : bool :=
  match v with
  | JStr t => negb (t =? s)
  | _ => true
  end.

(** [[...v]]: the items of an array, the characters of a string (bytes
    here, exact on ASCII); nothing else that [JSON.parse] builds is
    iterable. *)
Definition spread (v : JSValue) : outcome (list JSValue) :=
  match v with
  | JArr items => Ok items
  | JStr s => Ok (map (fun c => JStr (String c "")) (list_ascii_of_string s))
  | _ => Throw TypeError
  end.

(** [l.slice(0, n)] on an array. *)
Definition slice0 (n : nat) (l : list JSValue) : list JSValue := firstn n l.

Fixpoint filterM (f : JSValue -> outcome bool) (l : list JSValue) : outcome (list JSValue) :=
  match l with
  | [] => Ok []
  | x :: rest =>
      keep <- f x ;;
      kept <- filterM f rest ;;
      Ok (if keep then x :: kept else kept)
  end.

(** [v.filter(f)]: only an array has the method. *)
Definition array_filter (f : JSValue -> outcome bool) (v : JSValue) : outcome JSValue :=
  match v with
  | JArr items => kept <- filterM f items ;; Ok (JArr kept)
  | _ => Throw TypeError
  end.

(** [v.length] of an array; [None] where the value is no array. *)
Definition array_length (v : JSValue) : option nat :=
  match v with
  | JArr items => Some (List.length items)
  | _ => None
  end.

(** [n.toString()] for an integer [n]: its decimal digits, as JavaScript
    prints every integer below [10^21] in magnitude, a clock reading among
    them. *)
Definition Number_toString (n : Z) : string := NilZero.string_of_int (Z.to_int n).

(** The global [JSON]: [parse] returns a value or throws a SyntaxError,
    [stringify] returns a string, or [undefined] given [undefined]. *)
Class JSON : Type := {
  JSON_parse : string -> outcome JSValue;
  JSON_stringify : JSValue -> option string
}.

(** ** A reference [JSON]

    The grammar of ECMA-404 on byte strings.  Numbers keep their decimal
    value exactly (JavaScript rounds to a double and prints the shortest
    digits that read back); [\u] escapes are stored as UTF-8; a repeated
    key keeps its first place and its last value; keys are kept in the
    order of the text (JavaScript lists keys that are array indices
    first). *)
Module RefJSON.

Definition code (c : ascii) : Z := Z.of_N (N_of_ascii c).

Definition is_ws (c : ascii) : bool :=
  (code c =? 32)%Z || (code c =? 9)%Z || (code c =? 10)%Z || (code c =? 13)%Z.

Fixpoint skip_ws (s : string) : string :=
  match s with
  | String c r => if is_ws c then skip_ws r else s
  | EmptyString => s
  end.

Definition digit (c : ascii) : option Z :=
  if (48 <=? code c)%Z && (code c <=? 57)%Z then Some (code c - 48)%Z else None.

Definition hex (c : ascii) : option Z :=
  let n := code c in
  if (48 <=? n)%Z && (n <=? 57)%Z then Some (n - 48)%Z
  else if (65 <=? n)%Z && (n <=? 70)%Z then Some (n - 55)%Z
  else if (97 <=? n)%Z && (n <=? 102)%Z then Some (n - 87)%Z
  else None.

(** Reads digits greedily: the value they add to [acc], how many were
    read, and what follows. *)
Fixpoint digits (s : string) (acc : Z) (count : Z) : Z * Z * string :=
  match s with
  | String c r =>
      match digit c with
      | Some d => digits r (10 * acc + d)%Z (count + 1)%Z
      | None => (acc, count, s)
      end
  | EmptyString => (acc, count, s)
  end.

Definition parse_exponent (s : string) : option (Z * string) :=
  match s with
  | String c r =>
      if (code c =? 101)%Z || (code c =? 69)%Z then
        let '(sign, r1) :=
          match r with
          | String c1 r1 =>
              if (code c1 =? 45)%Z then ((-1)%Z, r1)
              else if (code c1 =? 43)%Z then (1%Z, r1)
              else (1%Z, r)
          | EmptyString => (1%Z, r)
          end in
        let '(e, n, r2) := digits r1 0%Z 0%Z in
        if (n =? 0)%Z then None else Some ((sign * e)%Z, r2)
      else Some (0%Z, s)
  | EmptyString => Some (0%Z, s)
  end.

Definition parse_fraction (int : Z) (s : string) : option (Z * Z * string) :=
  match s with
  | String c r =>
      if (code c =? 46)%Z then
        let '(m, n, r1) := digits r int 0%Z in
        if (n =? 0)%Z then None else Some (m, n, r1)
      else Some (int, 0%Z, s)
  | EmptyString => Some (int, 0%Z, s)
  end.

(** An optional minus sign; a zero, or a digit from 1 to 9 and further
    digits; an optional point and digits; an optional exponent. *)
Definition parse_number (s : string) : option (JSValue * string) :=
  let '(sign, s1) :=
    match s with
    | String c r => if (code c =? 45)%Z then ((-1)%Z, r) else (1%Z, s)
    | EmptyString => (1%Z, s)
    end in
  match s1 with
  | String c r =>
      match digit c with
      | Some d =>
          let '(int, _, s2) := if (d =? 0)%Z then (0%Z, 1%Z, r) else digits r d 1%Z in
          match parse_fraction int s2 with
          | Some (m, n, s3) =>
              match parse_exponent s3 with
              | Some (e, s4) => Some (JNum (sign * m) (e - n), s4)
              | None => None
              end
          | None => None
          end
      | None => None
      end
  | EmptyString => None
  end.

(** A character of a string literal: a byte of the text, or the UTF-16
    code unit that a [\u] escape names. *)
Inductive unit16 : Type :=
| Raw (c : ascii)
| Esc (u : Z).

Definition simple_escape (c : ascii) : option ascii :=
  let n := code c in
  if (n =? 34)%Z then Some "034"%char
  else if (n =? 92)%Z then Some "\"%char
  else if (n =? 47)%Z then Some "/"%char
  else if (n =? 98)%Z then Some "008"%char
  else if (n =? 102)%Z then Some "012"%char
  else if (n =? 110)%Z then Some "010"%char
  else if (n =? 114)%Z then Some "013"%char
  else if (n =? 116)%Z then Some "009"%char
  else None.

Definition hex4 (a b c d : ascii) : option Z :=
  match hex a, hex b, hex c, hex d with
  | Some x, Some y, Some z, Some w => Some (((x * 16 + y) * 16 + z) * 16 + w)%Z
  | _, _, _, _ => None
  end.

(** The characters after an opening quotation mark, up to the closing one. *)
Fixpoint parse_chars (s : string) : option (list unit16 * string) :=
  match s with
  | EmptyString => None
  | String c r =>
      if (code c =? 34)%Z then Some ([], r)
      else if (code c =? 92)%Z then
        match r with
        | String e r1 =>
            match simple_escape e with
            | Some b =>
                match parse_chars r1 with
                | Some (us, r2) => Some (Raw b :: us, r2)
                | None => None
                end
            | None =>
                if (code e =? 117)%Z then
                  match r1 with
                  | String h1 (String h2 (String h3 (String h4 r2))) =>
                      match hex4 h1 h2 h3 h4 with
                      | Some u =>
                          match parse_chars r2 with
                          | Some (us, r3) => Some (Esc u :: us, r3)
                          | None => None
                          end
                      | None => None
                      end
                  | _ => None
                  end
                else None
            end
        | EmptyString => None
        end
      else if (code c <? 32)%Z then None
      else
        match parse_chars r with
        | Some (us, r1) => Some (Raw c :: us, r1)
        | None => None
        end
  end.

Definition byte (n : Z) : ascii := ascii_of_N (Z.to_N n).

Definition utf8 (cp : Z) : string :=
  if (cp <? 128)%Z then String (byte cp) ""
  else if (cp <? 2048)%Z then
    String (byte (192 + cp / 64)) (String (byte (128 + cp mod 64)) "")
  else if (cp <? 65536)%Z then
    String (byte (224 + cp / 4096))
      (String (byte (128 + (cp / 64) mod 64)) (String (byte (128 + cp mod 64)) ""))
  else
    String (byte (240 + cp / 262144))
      (String (byte (128 + (cp / 4096) mod 64))
         (String (byte (128 + (cp / 64) mod 64)) (String (byte (128 + cp mod 64)) ""))).

Definition high_surrogate (u : Z) : bool := (55296 <=? u)%Z && (u <=? 56319)%Z.
Definition low_surrogate (u : Z) : bool := (56320 <=? u)%Z && (u <=? 57343)%Z.

Fixpoint encode (us : list unit16) : string :=
  match us with
  | [] => ""
  | Raw c :: rest => String c (encode rest)
  | Esc u :: rest =>
      match rest with
      | Esc v :: rest' =>
          if high_surrogate u && low_surrogate v
          then utf8 (65536 + (u - 55296) * 1024 + (v - 56320)) ++ encode rest'
          else utf8 u ++ encode rest
      | _ => utf8 u ++ encode rest
      end
  end.

Definition parse_string (s : string) : option (string * string) :=
  match parse_chars s with
  | Some (us, r) => Some (encode us, r)
  | None => None
  end.

Fixpoint has_key (k : string) (props : list (string * JSValue)) : bool :=
  match props with
  | [] => false
  | (k', _) :: rest => (k' =? k) || has_key k rest
  end.

Fixpoint replace (k : string) (v : JSValue) (props : list (string * JSValue)) :
  list (string * JSValue) :=
  match props with
  | [] => []
  | (k', v') :: rest => if k' =? k then (k', v) :: rest else (k', v') :: replace k v rest
  end.

Definition define (props : list (string * JSValue)) (k : string) (v : JSValue) :
  list (string * JSValue) :=
  if has_key k props then replace k v props else props ++ [(k, v)].

Fixpoint prefix (p s : string) : option string :=
  match p with
  | EmptyString => Some s
  | String c p' =>
      match s with
      | String d s' => if Ascii.eqb c d then prefix p' s' else None
      | EmptyString => None
      end
  end.

(** One value, with leading white space; [elements] and [members] read
    what follows [[] and [{] once the empty case is excluded. *)
Fixpoint value (fuel : nat) (s : string) {struct fuel} : option (JSValue * string) :=
  match fuel with
  | O => None
  | S fuel' =>
      match skip_ws s with
      | EmptyString => None
      | String c r =>
          let n := code c in
          if (n =? 34)%Z then
            match parse_string r with
            | Some (t, r1) => Some (JStr t, r1)
            | None => None
            end
          else if (n =? 91)%Z then
            match skip_ws r with
            | String c1 r1 =>
                if (code c1 =? 93)%Z then Some (JArr [], r1)
                else
                  match elements fuel' r with
                  | Some (l, r2) => Some (JArr l, r2)
                  | None => None
                  end
            | EmptyString => None
            end
          else if (n =? 123)%Z then
            match skip_ws r with
            | String c1 r1 =>
                if (code c1 =? 125)%Z then Some (JObj [], r1)
                else
                  match members fuel' [] r with
                  | Some (ps, r2) => Some (JObj ps, r2)
                  | None => None
                  end
            | EmptyString => None
            end
          else
            match prefix "null" (String c r), prefix "true" (String c r),
                  prefix "false" (String c r) with
            | Some r1, _, _ => Some (JNull, r1)
            | _, Some r1, _ => Some (JBool true, r1)
            | _, _, Some r1 => Some (JBool false, r1)
            | None, None, None => parse_number (String c r)
            end
      end
  end
with elements (fuel : nat) (s : string) {struct fuel} : option (list JSValue * string) :=
  match fuel with
  | O => None
  | S fuel' =>
      match value fuel' s with
      | Some (v, r) =>
          match skip_ws r with
          | String c r1 =>
              if (code c =? 44)%Z then
                match elements fuel' r1 with
                | Some (l, r2) => Some (v :: l, r2)
                | None => None
                end
              else if (code c =? 93)%Z then Some ([v], r1)
              else None
          | EmptyString => None
          end
      | None => None
      end
  end
with members (fuel : nat) (acc : list (string * JSValue)) (s : string) {struct fuel} :
  option (list (string * JSValue) * string) :=
  match fuel with
  | O => None
  | S fuel' =>
      match skip_ws s with
      | String q r =>
          if (code q =? 34)%Z then
            match parse_string r with
            | Some (k, r1) =>
                match skip_ws r1 with
                | String c r2 =>
                    if (code c =? 58)%Z then
                      match value fuel' r2 with
                      | Some (v, r3) =>
                          match skip_ws r3 with
                          | String d r4 =>
                              if (code d =? 44)%Z then members fuel' (define acc k v) r4
                              else if (code d =? 125)%Z then Some (define acc k v, r4)
                              else None
                          | EmptyString => None
                          end
                      | None => None
                      end
                    else None
                | EmptyString => None
                end
            | None => None
            end
          else None
      | EmptyString => None
      end
  end.

(** [JSON.parse(text)]: one value and nothing after it but white space.
    Along a chain of calls of [value], [elements] and [members] the text
    gets shorter at least every second call, so a fuel of twice its length
    is never used up: more would change nothing, as is proved below. *)
Definition parse (text : string) : outcome JSValue :=
  match value (2 * String.length text + 2) text with
  | Some (v, r) =>
      match skip_ws r with
      | EmptyString => Ok v
      | String _ _ => Throw SyntaxError
      end
  | None => Throw SyntaxError
  end.

Definition hex_digit (n : Z) : ascii :=
  if (n <? 10)%Z then byte (48 + n) else byte (87 + n).

Fixpoint escape (s : string) : string :=
  match s with
  | EmptyString => ""
  | String c r =>
      let n := code c in
      (if (n =? 34)%Z then String "\" (String "034" "")
       else if (n =? 92)%Z then "\\"
       else if (n =? 8)%Z then "\b"
       else if (n =? 12)%Z then "\f"
       else if (n =? 10)%Z then "\n"
       else if (n =? 13)%Z then "\r"
       else if (n =? 9)%Z then "\t"
       else if (n <? 32)%Z then "\u00" ++ String (hex_digit (n / 16)) (String (hex_digit (n mod 16)) "")
       else String c "") ++ escape r
  end.

Definition quote (s : string) : string :=
  String "034" (escape s ++ String "034" "").

Fixpoint zeros (n : nat) : string :=
  match n with
  | O => ""
  | S k => String "0" (zeros k)
  end.

(** [m * 10^e] in decimal digits, with a fraction when [e] is negative. *)
Definition print_number (m e : Z) : string :=
  if (0 <=? e)%Z then Number_toString (m * 10 ^ e)
  else
    let k := Z.to_nat (- e) in
    let ds := Number_toString (Z.abs m) in
    let ds := zeros (S k - String.length ds) ++ ds in
    let n := String.length ds - k in
    (if (m <? 0)%Z then "-" else "") ++ substring 0 n ds ++ "." ++ substring n k ds.

Fixpoint join (parts : list string) : string :=
  match parts with
  | [] => ""
  | [p] => p
  | p :: rest => p ++ "," ++ join rest
  end.

(** [JSON.stringify(v)]: a property whose value is [undefined] is left
    out of an object; an [undefined] item of an array is written [null]. *)
Fixpoint stringify (v : JSValue) : option string :=
  match v with
  | JUndefined => None
  | JNull => Some "null"
  | JBool true => Some "true"
  | JBool false => Some "false"
  | JNum m e => Some (print_number m e)
  | JStr s => Some (quote s)
  | JArr items =>
      Some ("[" ++ join (map (fun x => match stringify x with
                                       | Some t => t
                                       | None => "null"
                                       end) items) ++ "]")
  | JObj props =>
      Some ("{" ++ join (flat_map (fun p => match stringify (snd p) with
                                            | Some t => [quote (fst p) ++ ":" ++ t]
                                            | None => []
                                            end) props) ++ "}")
  end.

#[global] Instance ref : JSON := {| JSON_parse := parse; JSON_stringify := stringify |}.

(** A JSON text written with ['] for the quotation mark. *)
Fixpoint text (s : string) : string :=
  match s with
  | EmptyString => ""
  | String c r => String (if (code c =? 39)%Z then "034"%char else c) (text r)
  end.

End RefJSON.

(** ** The data model ([types.ts]) *)

(** [interface ScanResult].  The program fills [id], [timestamp] and
    [imageUrl] itself; the other fields hold whatever the reply had under
    the matching name, a string by the annotation only. *)
Record Vehicle : Type := {
  make : JSValue;
  model : JSValue;
  color : JSValue;
  type : JSValue
}.

Record ScanResult : Type := {
  id : string;
  timestamp : Z;
  imageUrl : string;
  plateNumber : JSValue;
  region : JSValue;
  vehicle : Vehicle;
  confidence : JSValue
}.

(** The object that a [ScanResult] literal evaluates to. *)
Definition object_of (r : ScanResult) : JSValue :=
  JObj [("id", JStr (id r));
        ("timestamp", JNum (timestamp r) 0);
        ("imageUrl", JStr (imageUrl r));
        ("plateNumber", plateNumber r);
        ("region", region r);
        ("vehicle", JObj [("make", make (vehicle r));
                          ("model", model (vehicle r));
                          ("color", color (vehicle r));
                          ("type", type (vehicle r))]);
        ("confidence", confidence r)].

(** [interface RecognitionData]: the seven string fields of a reply. *)
Module RecognitionData.
Record t : Type := {
  plate_number : string;
  region : string;
  vehicle_make : string;
  vehicle_model : string;
  vehicle_color : string;
  vehicle_type : string;
  confidence_score : string
}.
End RecognitionData.

(** The seven names that the request's schema lists as required. *)
Definition required : list string :=
  ["plate_number"; "region"; "vehicle_make"; "vehicle_model"; "vehicle_color";
   "vehicle_type"; "confidence_score"].

(** A value has the shape of [d] when each of the seven properties reads
    as the string that [d] gives it. *)
Definition has_shape (data : JSValue) (d : RecognitionData.t) : Prop :=
  map (getProp data) required =
  map (fun s => Ok (JStr s))
    [RecognitionData.plate_number d; RecognitionData.region d;
     RecognitionData.vehicle_make d; RecognitionData.vehicle_model d;
     RecognitionData.vehicle_color d; RecognitionData.vehicle_type d;
     RecognitionData.confidence_score d].

(** A reply lacks a required field when the property reads [undefined]. *)
Definition missing (data : JSValue) (name : string) : Prop :=
  getProp data name = Ok JUndefined.

(** ** The recognition client ([services/geminiService.ts]) *)

(** What [await ai.models.generateContent(...)] comes to: the promise
    rejects, or it resolves to a response whose [text] is a string or
    [undefined]. *)
Inductive ServiceReply : Type :=
| CallRejected
| Response (text : option string).

Section Program.

Context {json : JSON}.

(** [recognizePlate], from the point where the awaited call settles. *)
Definition recognizePlate (reply : ServiceReply) : outcome JSValue :=
  match reply with
  | CallRejected => Throw Rejected
  | Response text =>
      if falsy text then Throw (Error "Failed to get response from AI")
      else
        match text with
        | Some t => JSON_parse t
        | None => Throw (Error "Failed to get response from AI")
        end
  end.

(** ** The component's state ([App.tsx]) *)

Record AppState : Type := {
  image : option string;
  isProcessing : bool;
  result : option ScanResult;
  history : JSValue;
  error : option string
}.

(** The values given to the five [useState] calls. *)
Definition initialState : AppState :=
  {| image := None; isProcessing := false; result := None;
     history := JArr []; error := None |}.

(** What a handler or an effect does, in the order it does it: calls of
    the five setters, and [localStorage.removeItem].  [setHistory] takes
    the updater function; [value v] is the updater of a call that passes
    the value [v] itself. *)
Inductive Action : Type :=
| setImage (v : option string)
| setIsProcessing (b : bool)
| setResult (r : option ScanResult)
| setHistory (f : JSValue -> outcome JSValue)
| setError (e : option string)
| removeItem.

Definition value (v : JSValue) : JSValue -> outcome JSValue := fun _ => Ok v.

(** The state after one queued update; an updater that throws makes the
    render throw. *)
Definition update (s : AppState) (a : Action) : outcome AppState :=
  match a with
  | setImage v =>
      Ok {| image := v; isProcessing := isProcessing s; result := result s;
            history := history s; error := error s |}
  | setIsProcessing b =>
      Ok {| image := image s; isProcessing := b; result := result s;
            history := history s; error := error s |}
  | setResult r =>
      Ok {| image := image s; isProcessing := isProcessing s; result := r;
            history := history s; error := error s |}
  | setHistory f =>
      h <- f (history s) ;;
      Ok {| image := image s; isProcessing := isProcessing s; result := result s;
            history := h; error := error s |}
  | setError e =>
      Ok {| image := image s; isProcessing := isProcessing s; result := result s;
            history := history s; error := e |}
  | removeItem => Ok s
  end.

Fixpoint updates (s : AppState) (acts : list Action) : outcome AppState :=
  match acts with
  | [] => Ok s
  | a :: rest => s' <- update s a ;; updates s' rest
  end.

Definition sets_history (a : Action) : bool :=
  match a with
  | setHistory _ => true
  | _ => false
  end.

(** ** Effects *)

(** The first effect: [getItem], and [setHistory(JSON.parse(saved))] when
    the entry is truthy and parses; a SyntaxError is caught and logged. *)
Definition loadHistory (saved : option string) : list Action :=
  if falsy saved then []
  else
    match saved with
    | Some text =>
        match JSON_parse text with
        | Ok v => [setHistory (value v)]
        | Throw _ => []
        end
    | None => []
    end.

(** The second effect: [setItem(key, JSON.stringify(history))]; [setItem]
    stores the string of what it is given. *)
Definition saveHistory (s : AppState) : option string :=
  match JSON_stringify (history s) with
  | Some text => Some text
  | None => Some "undefined"
  end.

(** ** Handlers *)

(** [reader.onloadend] in [handleFileUpload]; [reader.result] is [null]
    when the read failed. *)
Definition handleFileUpload (read : option string) : list Action :=
  [setImage read; setResult None; setError None].

(** The click handler of the discard button. *)
Definition discardImage : list Action :=
  [setImage None; setResult None; setError None].

(** [processImage] up to its [await]: [None] when it returns at the guard,
    else the image that the closure holds and the two updates made before
    the call is issued. *)
Definition processImage (s : AppState) : option (string * list Action) :=
  if falsy (image s) then None
  else
    match image s with
    | Some img => Some (img, [setIsProcessing true; setError None])
    | None => None
    end.

(** The object literal [newResult]: two clock readings, the image, and
    seven property reads of [data]. *)
Definition newResult (img : string) (now1 now2 : Z) (data : JSValue) : outcome ScanResult :=
  plate_number <- getProp data "plate_number" ;;
  region <- getProp data "region" ;;
  vehicle_make <- getProp data "vehicle_make" ;;
  vehicle_model <- getProp data "vehicle_model" ;;
  vehicle_color <- getProp data "vehicle_color" ;;
  vehicle_type <- getProp data "vehicle_type" ;;
  confidence_score <- getProp data "confidence_score" ;;
  Ok {| id := Number_toString now1;
        timestamp := now2;
        imageUrl := img;
        plateNumber := plate_number;
        region := region;
        vehicle := {| make := vehicle_make; model := vehicle_model;
                      color := vehicle_color; type := vehicle_type |};
        confidence := confidence_score |}.

(** [prev => [newResult, ...prev].slice(0, 10)] *)
Definition prepend (r : ScanResult) (prev : JSValue) : outcome JSValue :=
  items <- spread prev ;;
  Ok (JArr (slice0 10 (object_of r :: items))).

(** What the [try] block computes once the call has settled. *)
Definition attempt (img : string) (reply : ServiceReply) (now1 now2 : Z) : outcome ScanResult :=
  data <- recognizePlate reply ;;
  newResult img now1 now2 data.

Definition failure_message : string :=
  "Failed to recognize plate. Please try a clearer image.".

(** [processImage] after its [await]: the rest of [try], or [catch], and
    then [finally]. *)
Definition processImage_settled (img : string) (reply : ServiceReply) (now1 now2 : Z) :
  list Action :=
  match attempt img reply now1 now2 with
  | Ok r => [setResult (Some r); setHistory (prepend r); setIsProcessing false]
  | Throw _ => [setError (Some failure_message); setIsProcessing false]
  end.

(** [clearHistory], given the answer of [window.confirm]. *)
Definition clearHistory (confirmed : bool) : list Action :=
  if confirmed then [setHistory (value (JArr [])); removeItem] else [].

(** [prev => prev.filter(item => item.id !== id)] *)
Definition without (id : string) (prev : JSValue) : outcome JSValue :=
  array_filter (fun item => item_id <- getProp item "id" ;; Ok (strict_neq_string item_id id)) prev.

Definition deleteHistoryItem (id : string) : list Action :=
  [setHistory (without id)].

(** ** The running application *)

(** The component's state, the stored entry
    [localStorage['plate_recognition_history']], and the calls of
    [processImage] that wait at their [await], each with the image its
    closure holds. *)
Record World : Type := {
  app : AppState;
  storage : option string;
  outstanding : list string
}.

(** A storage after the [removeItem] calls among the actions. *)
Definition stored (st : option string) (acts : list Action) : option string :=
  if existsb (fun a => match a with removeItem => true | _ => false end) acts
  then None else st.

(** One turn of the event loop: the actions run ([removeItem] at once, the
    setters queued), the component renders with the queued updates
    applied, and the save effect runs when [history] was set: every
    [setHistory] of this program passes a freshly built value, so the
    effect's dependency differs.  [None]: an updater threw, and React
    unmounts the component. *)
Definition react (w : World) (acts : list Action) (calls : list string) : option World :=
  match updates (app w) acts with
  | Ok s =>
      Some {| app := s;
              storage := if existsb sets_history acts then saveHistory s
                         else stored (storage w) acts;
              outstanding := calls |}
  | Throw _ => None
  end.

(** Mounting: the first render shows [initialState]; both effects run, the
    second saving the history of that first render; when the first one set
    the history, the component renders again and saves again. *)
Definition mount (saved : option string) : option World :=
  react {| app := initialState; storage := saveHistory initialState; outstanding := [] |}
        (loadHistory saved) [].

(** The recognize and discard buttons exist while [image] is truthy. *)
Definition image_shown (s : AppState) : bool := negb (falsy (image s)).

(** The history section exists while [history.length > 0]. *)
Definition history_shown (s : AppState) : bool :=
  match history s with
  | JArr (_ :: _) => true
  | _ => false
  end.

(** A delete button exists for each item shown, and passes that item's [id]. *)
Definition deletable (s : AppState) (id : string) : bool :=
  match history s with
  | JArr items => existsb (fun item => match getProp item "id" with
                                       | Ok (JStr t) => t =? id
                                       | _ => false
                                       end) items
  | _ => false
  end.

Fixpoint remove_nth {A : Type} (i : nat) (l : list A) : list A :=
  match l, i with
  | [], _ => []
  | _ :: rest, O => rest
  | x :: rest, S j => x :: remove_nth j rest
  end.

(** What can happen next: a file was read, a button was clicked, an
    outstanding call has settled.  [DeleteClicked] carries the [id] that
    the clicked item passes, a string by the handler's annotation. *)
Inductive Event : Type :=
| FileRead (read : option string)
| DiscardClicked
| RecognizeClicked
| CallSettled (i : nat) (reply : ServiceReply) (now1 now2 : Z)
| ClearClicked (confirmed : bool)
| DeleteClicked (id : string).

(** A click on a control that does not exist, or on the disabled
    recognize button, or the settling of a call that is not outstanding,
    changes nothing. *)
Definition step (w : World) (ev : Event) : option World :=
  match ev with
  | FileRead read => react w (handleFileUpload read) (outstanding w)
  | DiscardClicked =>
      if image_shown (app w) then react w discardImage (outstanding w) else Some w
  | RecognizeClicked =>
      if image_shown (app w) && negb (isProcessing (app w)) then
        match processImage (app w) with
        | Some (img, acts) => react w acts (outstanding w ++ [img])
        | None => Some w
        end
      else Some w
  | CallSettled i reply now1 now2 =>
      match nth_error (outstanding w) i with
      | Some img =>
          react w (processImage_settled img reply now1 now2) (remove_nth i (outstanding w))
      | None => Some w
      end
  | ClearClicked confirmed =>
      if history_shown (app w) then react w (clearHistory confirmed) (outstanding w)
      else Some w
  | DeleteClicked id =>
      if deletable (app w) id then react w (deleteHistoryItem id) (outstanding w)
      else Some w
  end.

Fixpoint run (w : World) (evs : list Event) : option World :=
  match evs with
  | [] => Some w
  | ev :: rest =>
      match step w ev with
      | Some w' => run w' rest
      | None => None
      end
  end.

(** A session: the page is opened on a stored entry, and events follow. *)
Definition session (saved : option string) (evs : list Event) : option World :=
  match mount saved with
  | Some w => run w evs
  | None => None
  end.

End Program.

(** ** Vocabulary of the properties *)

(** An item whose [id] can be read: anything but [null] and [undefined]. *)
Definition readable (item : JSValue) : Prop :=
  exists v, getProp item "id" = Ok v.

(** The item's [id] is the string [i]. *)
Definition has_id (i : string) (item : JSValue) : bool :=
  match getProp item "id" with
  | Ok (JStr t) => t =? i
  | _ => false
  end.

Definition matching (i : string) (l : list JSValue) : list JSValue :=
  filter (has_id i) l.

Definition others (i : string) (l : list JSValue) : list JSValue :=
  filter (fun item => negb (has_id i item)) l.

(** The [id]s of the items, as read. *)
Definition ids (l : list JSValue) : list (outcome JSValue) :=
  map (fun item => getProp item "id") l.

(** The history is an array of at most [n] items. *)
Definition capped (n : nat) (h : JSValue) : Prop :=
  exists l, h = JArr l /\ List.length l <= n.

(** The history is an array whose items can all be read. *)
Definition well_formed (h : JSValue) : Prop :=
  exists l, h = JArr l /\ Forall readable l.

(** The service gave nothing to parse: the call was rejected, or the
    response has no text or an empty one. *)
Definition no_usable_payload (reply : ServiceReply) : Prop :=
  reply = CallRejected \/ exists text, reply = Response text /\ falsy text = true.

(** The service gave a text that [JSON.parse] rejects. *)
Definition unparsable {json : JSON} (reply : ServiceReply) : Prop :=
  exists t e, reply = Response (Some t) /\ t <> "" /\ JSON_parse t = Throw e.

(** [isProcessing] is set exactly while one call is outstanding. *)
Definition single_flight (w : World) : Prop :=
  (isProcessing (app w) = false /\ outstanding w = []) \/
  (isProcessing (app w) = true /\ exists img, outstanding w = [img]).

(** ** Sample data *)

(** The reply of the specification's example scenario. *)
Definition camry : RecognitionData.t :=
  {| RecognitionData.plate_number := "ABC123";
     RecognitionData.region := "CA";
     RecognitionData.vehicle_make := "Toyota";
     RecognitionData.vehicle_model := "Camry";
     RecognitionData.vehicle_color := "Blue";
     RecognitionData.vehicle_type := "Sedan";
     RecognitionData.confidence_score := "High" |}.

Definition camry_text : string :=
  RefJSON.text "{'plate_number':'ABC123','region':'CA','vehicle_make':'Toyota','vehicle_model':'Camry','vehicle_color':'Blue','vehicle_type':'Sedan','confidence_score':'High'}".

Definition camry_reply : ServiceReply := Response (Some camry_text).

Definition picture : string := "data:image/jpeg;base64,AAAA".

(** The scan made of [camry] when both clock readings are [n]. *)
Definition scan (n : Z) : ScanResult :=
  {| id := Number_toString n;
     timestamp := n;
     imageUrl := picture;
     plateNumber := JStr "ABC123";
     region := JStr "CA";
     vehicle := {| make := JStr "Toyota"; model := JStr "Camry";
                   color := JStr "Blue"; type := JStr "Sedan" |};
     confidence := JStr "High" |}.

(** [scans k n]: [k] scans, the newest first, with readings [n+k-1] down to [n]. *)
Fixpoint scans (k : nat) (n : Z) : list ScanResult :=
  match k with
  | O => []
  | S k' => scan (n + Z.of_nat k') :: scans k' n
  end.

(** What the save effect stores for a history of [k] such scans. *)
Definition stored_scans (k : nat) : string :=
  match RefJSON.stringify (JArr (map object_of (scans k 1700000000000))) with
  | Some text => text
  | None => ""
  end.

(** The events after which a picture is chosen and one call is outstanding. *)
Definition one_call_out : list Event := [FileRead (Some picture); RecognizeClicked].

(** The world after them, when the page was opened on [saved] scans. *)
Definition waiting (saved : list ScanResult) : World :=
  {| app := {| image := Some picture; isProcessing := true; result := None;
               history := JArr (map object_of saved); error := None |};
     storage := RefJSON.stringify (JArr (map object_of saved));
     outstanding := [picture] |}.

(** ** The request ([App.tsx], [services/geminiService.ts]) *)

(** [s.split(sep)] for a separator of one character: the pieces between
    its occurrences, one piece more than there are occurrences. *)
Fixpoint split (sep : ascii) (s : string) : list string :=
  match s with
  | EmptyString => [""]
  | String c r =>
      if Ascii.eqb c sep then "" :: split sep r
      else
        match split sep r with
        | piece :: pieces => String c piece :: pieces
        | [] => [String c ""]
        end
  end.

(** [image.split(',')[1]]: [undefined] when there is no second piece. *)
Definition base64Data (image : string) : option string :=
  nth_error (split "," image) 1.

Inductive SchemaType : Type :=
| STRING
| OBJECT.

(** The argument of [ai.models.generateContent], as far as it varies or
    is read below: the model, the one image part, the text part, and the
    configuration of the response. *)
Module Request.
Record t : Type := {
  model : string;
  mimeType : string;
  data : option string;
  text : string;
  responseMimeType : string;
  schemaType : SchemaType;
  properties : list (string * (SchemaType * string));
  required : list string
}.
End Request.

Definition modelName : string := "gemini-3-flash-preview".

Definition newline : string := String "010" "".

Definition prompt : string :=
  "Please analyze this image of a vehicle and identify the license plate information. "
  ++ newline ++
  "          Extract the plate number clearly. Also identify the region/country if possible, and provide vehicle details (make, model, color, type)."
  ++ newline ++
  "          Return the data in a structured JSON format.".

Definition responseSchema_properties : list (string * (SchemaType * string)) :=
  [("plate_number", (STRING, "The alphanumeric characters on the license plate."));
   ("region", (STRING, "The state, province, or country of the plate."));
   ("vehicle_make", (STRING, "Brand of the vehicle (e.g., Toyota, Tesla)."));
   ("vehicle_model", (STRING, "Model of the vehicle (e.g., Camry, Model 3)."));
   ("vehicle_color", (STRING, "Predominant color of the vehicle."));
   ("vehicle_type", (STRING, "Type of vehicle (e.g., Sedan, SUV, Truck)."));
   ("confidence_score", (STRING, "Confidence level (High, Medium, Low)."))].

(** What [recognizePlate(base64Image)] passes to [generateContent]. *)
Definition recognizePlate_request (base64Image : option string) : Request.t :=
  {| Request.model := modelName;
     Request.mimeType := "image/jpeg";
     Request.data := base64Image;
     Request.text := prompt;
     Request.responseMimeType := "application/json";
     Request.schemaType := OBJECT;
     Request.properties := responseSchema_properties;
     Request.required := required |}.

(** The request that [processImage] issues for the image it holds. *)
Definition issued_request (image : string) : Request.t :=
  recognizePlate_request (base64Data image).

(** ** Further vocabulary *)

(** The string has a comma in it. *)
Fixpoint has_comma (s : string) : bool :=
  match s with
  | EmptyString => false
  | String c r => Ascii.eqb c "," || has_comma r
  end.

(** The value is a string. *)
Definition is_string (v : JSValue) : Prop := exists s, v = JStr s.

(** The seven fields that a record takes from the reply. *)
Definition reply_fields (r : ScanResult) : list JSValue :=
  [plateNumber r; region r; make (vehicle r); model (vehicle r);
   color (vehicle r); type (vehicle r); confidence r].

(** The record with none of them. *)
Definition blank (img : string) (now1 now2 : Z) : ScanResult :=
  {| id := Number_toString now1; timestamp := now2; imageUrl := img;
     plateNumber := JUndefined; region := JUndefined;
     vehicle := {| make := JUndefined; model := JUndefined;
                   color := JUndefined; type := JUndefined |};
     confidence := JUndefined |}.

(** A value that is neither an object, nor [null], nor [undefined]. *)
Definition primitive_or_array (v : JSValue) : bool :=
  match v with
  | JBool _ | JNum _ _ | JStr _ | JArr _ => true
  | _ => false
  end.

(** The prepend updater applied for each record in turn, the first record
    first. *)
Fixpoint prepend_each (rs : list ScanResult) (h : JSValue) : outcome JSValue :=
  match rs with
  | [] => Ok h
  | r :: rest => h' <- prepend r h ;; prepend_each rest h'
  end.

(** A change of the history: the three updaters that the handlers pass
    to [setHistory]. *)
Inductive Mutation : Type :=
| Prepended (r : ScanResult)
| Removed (id : string)
| Cleared.

Definition updater (m : Mutation) : JSValue -> outcome JSValue :=
  match m with
  | Prepended r => prepend r
  | Removed i => without i
  | Cleared => value (JArr [])
  end.

(** The updaters applied in turn, the first one first. *)
Fixpoint mutate (ms : list Mutation) (h : JSValue) : outcome JSValue :=
  match ms with
  | [] => Ok h
  | m :: rest => h' <- updater m h ;; mutate rest h'
  end.

(** The event is the settling of a call. *)
Definition settles (ev : Event) : bool :=
  match ev with
  | CallSettled _ _ _ _ => true
  | _ => false
  end.

(** What is shown of an error: nothing, or the one message of [catch]. *)
Definition error_shown (w : World) : Prop :=
  (error (app w) = None \/ error (app w) = Some failure_message) /\
  (isProcessing (app w) = true -> error (app w) = None).

(** A second picture, and a data URL of another type. *)
Definition other_picture : string := "data:image/png;base64,BBBB".

(** * Properties *)

Local Open Scope list_scope.

(** ** The reference [JSON] has fuel enough

    What is left after a value is shorter than what was there before it;
    hence the fuel that [parse] gives is never used up, and a text that it
    rejects is rejected for its syntax. *)

Module RefJSONFuel.
Import RefJSON.

Lemma skip_ws_length (s : string) : String.length (skip_ws s) <= String.length s.
Proof.
  induction s as [|c s IH]; simpl; [lia|]. destruct (is_ws c); simpl; lia.
Qed.

Lemma digits_length (s : string) (acc count a n : Z) (r : string) :
  digits s acc count = (a, n, r) -> String.length r <= String.length s.
Proof.
  revert acc count; induction s as [|c s IH]; simpl; intros acc count H.
  - injection H as _ _ <-. simpl. lia.
  - destruct (digit c).
    + apply IH in H. lia.
    + injection H as _ _ <-. simpl. lia.
Qed.

Lemma parse_fraction_length (int : Z) (s : string) (m n : Z) (r : string) :
  parse_fraction int s = Some (m, n, r) -> String.length r <= String.length s.
Proof.
  unfold parse_fraction. destruct s as [|c s]; [intros [= _ _ <-]; simpl; lia|].
  destruct (code c =? 46)%Z.
  - destruct (digits s int 0) as [[m' n'] r'] eqn:D.
    destruct (n' =? 0)%Z; [discriminate|]. intros [= _ _ <-].
    apply digits_length in D. simpl. lia.
  - intros [= _ _ <-]. lia.
Qed.

Lemma parse_exponent_length (s : string) (e : Z) (r : string) :
  parse_exponent s = Some (e, r) -> String.length r <= String.length s.
Proof.
  unfold parse_exponent. destruct s as [|c s]; [intros [= _ <-]; simpl; lia|].
  destruct ((code c =? 101)%Z || (code c =? 69)%Z).
  - destruct (match s with
              | "" => (1%Z, s)
              | String c1 r1 =>
                  if (code c1 =? 45)%Z then ((-1)%Z, r1)
                  else if (code c1 =? 43)%Z then (1%Z, r1) else (1%Z, s)
              end) as [sign r1] eqn:S.
    assert (L : String.length r1 <= String.length s).
    { destruct s as [|c1 s1]; [injection S as _ <-; lia|].
      destruct (code c1 =? 45)%Z; [injection S as _ <-; simpl; lia|].
      destruct (code c1 =? 43)%Z; injection S as _ <-; simpl; lia. }
    destruct (digits r1 0 0) as [[e' n'] r2] eqn:D.
    destruct (n' =? 0)%Z; [discriminate|]. intros [= _ <-].
    apply digits_length in D. simpl. lia.
  - intros [= _ <-]. lia.
Qed.

Lemma parse_number_length (s : string) (v : JSValue) (r : string) :
  parse_number s = Some (v, r) -> String.length r < String.length s.
Proof.
  unfold parse_number.
  destruct (match s with
            | "" => (1%Z, s)
            | String c r0 => if (code c =? 45)%Z then ((-1)%Z, r0) else (1%Z, s)
            end) as [sign s1] eqn:S.
  assert (L : String.length s1 <= String.length s).
  { destruct s as [|c s0]; [injection S as _ <-; lia|].
    destruct (code c =? 45)%Z; injection S as _ <-; simpl; lia. }
  destruct s1 as [|c r0]; [discriminate|].
  destruct (digit c) as [d|]; [|discriminate].
  destruct (if (d =? 0)%Z then (0%Z, 1%Z, r0) else digits r0 d 1) as [[int k] s2] eqn:D.
  assert (L2 : String.length s2 <= String.length r0).
  { destruct (d =? 0)%Z; [injection D as _ _ <-; lia | now apply digits_length in D]. }
  destruct (parse_fraction int s2) as [[[m n] s3]|] eqn:F; [|discriminate].
  destruct (parse_exponent s3) as [[e s4]|] eqn:X; [|discriminate].
  intros [= _ <-]. apply parse_fraction_length in F. apply parse_exponent_length in X.
  simpl in L. lia.
Qed.

Lemma parse_chars_length (s : string) (us : list unit16) (r : string) :
  parse_chars s = Some (us, r) -> String.length r < String.length s.
Proof.
  remember (String.length s) as n eqn:E. assert (B : String.length s <= n) by lia. clear E.
  revert s us r B. induction n as [|n IH]; intros s us r B.
  - destruct s; [discriminate | simpl in B; lia].
  - destruct s as [|c s]; [discriminate|]. simpl in B. cbn [parse_chars].
    destruct (code c =? 34)%Z; [intros [= _ <-]; simpl; lia|].
    destruct (code c =? 92)%Z.
    + destruct s as [|e s1]; [discriminate|]. simpl in B.
      destruct (simple_escape e).
      * destruct (parse_chars s1) as [[us1 r1]|] eqn:P; [|discriminate].
        intros [= _ <-]. apply IH in P; [simpl; lia | lia].
      * destruct (code e =? 117)%Z; [|discriminate].
        destruct s1 as [|h1 [|h2 [|h3 [|h4 s2]]]]; try discriminate.
        destruct (hex4 h1 h2 h3 h4); [|discriminate].
        destruct (parse_chars s2) as [[us1 r1]|] eqn:P; [|discriminate].
        intros [= _ <-]. simpl in B. apply IH in P; [simpl; lia | lia].
    + destruct (code c <? 32)%Z; [discriminate|].
      destruct (parse_chars s) as [[us1 r1]|] eqn:P; [|discriminate].
      intros [= _ <-]. apply IH in P; [simpl; lia | lia].
Qed.

Lemma parse_string_length (s k r : string) :
  parse_string s = Some (k, r) -> String.length r < String.length s.
Proof.
  unfold parse_string. destruct (parse_chars s) as [[us r1]|] eqn:P; [|discriminate].
  intros [= _ <-]. now apply parse_chars_length in P.
Qed.

Lemma prefix_length (p s r : string) :
  prefix p s = Some r -> String.length r + String.length p = String.length s.
Proof.
  revert s; induction p as [|c p IH]; simpl; intros s H.
  - injection H as <-. lia.
  - destruct s as [|d s]; [discriminate|]. destruct (Ascii.eqb c d); [|discriminate].
    apply IH in H. simpl. lia.
Qed.

Lemma skip_ws_cons (s : string) (c : ascii) (r : string) :
  skip_ws s = String c r -> String.length r < String.length s.
Proof. intros H. pose proof (skip_ws_length s) as L. rewrite H in L. simpl in L. lia. Qed.

Lemma value_length (fuel : nat) :
  (forall s v r, value fuel s = Some (v, r) -> String.length r < String.length s) /\
  (forall s l r, elements fuel s = Some (l, r) -> String.length r < String.length s) /\
  (forall acc s ps r, members fuel acc s = Some (ps, r) -> String.length r < String.length s).
Proof.
  induction fuel as [|fuel (IHv & IHe & IHm)]; [repeat split; discriminate|].
  split; [|split].
  - intros s v r. cbn [value].
    destruct (skip_ws s) as [|c s1] eqn:W; [discriminate|].
    apply skip_ws_cons in W.
    destruct (code c =? 34)%Z.
    { destruct (parse_string s1) as [[t r1]|] eqn:P; [|discriminate].
      intros [= _ <-]. apply parse_string_length in P. lia. }
    destruct (code c =? 91)%Z.
    { destruct (skip_ws s1) as [|c1 r1] eqn:W1; [discriminate|].
      apply skip_ws_cons in W1.
      destruct (code c1 =? 93)%Z; [intros [= _ <-]; lia|].
      destruct (elements fuel s1) as [[l r2]|] eqn:E; [|discriminate].
      intros [= _ <-]. apply IHe in E. lia. }
    destruct (code c =? 123)%Z.
    { destruct (skip_ws s1) as [|c1 r1] eqn:W1; [discriminate|].
      apply skip_ws_cons in W1.
      destruct (code c1 =? 125)%Z; [intros [= _ <-]; lia|].
      destruct (members fuel [] s1) as [[ps r2]|] eqn:E; [|discriminate].
      intros [= _ <-]. apply IHm in E. lia. }
    destruct (prefix "null" (String c s1)) as [r1|] eqn:P1.
    { intros [= _ <-]. apply prefix_length in P1. simpl in P1. lia. }
    destruct (prefix "true" (String c s1)) as [r1|] eqn:P2.
    { intros [= _ <-]. apply prefix_length in P2. simpl in P2. lia. }
    destruct (prefix "false" (String c s1)) as [r1|] eqn:P3.
    { intros [= _ <-]. apply prefix_length in P3. simpl in P3. lia. }
    intros N. apply parse_number_length in N. simpl in N. lia.
  - intros s l r. cbn [elements].
    destruct (value fuel s) as [[v r0]|] eqn:V; [|discriminate]. apply IHv in V.
    destruct (skip_ws r0) as [|c r1] eqn:W; [discriminate|]. apply skip_ws_cons in W.
    destruct (code c =? 44)%Z.
    { destruct (elements fuel r1) as [[l1 r2]|] eqn:E; [|discriminate].
      intros [= _ <-]. apply IHe in E. lia. }
    destruct (code c =? 93)%Z; [|discriminate]. intros [= _ <-]. lia.
  - intros acc s ps r. cbn [members].
    destruct (skip_ws s) as [|q s1] eqn:W; [discriminate|]. apply skip_ws_cons in W.
    destruct (code q =? 34)%Z; [|discriminate].
    destruct (parse_string s1) as [[k r1]|] eqn:P; [|discriminate].
    apply parse_string_length in P.
    destruct (skip_ws r1) as [|c r2] eqn:W2; [discriminate|]. apply skip_ws_cons in W2.
    destruct (code c =? 58)%Z; [|discriminate].
    destruct (value fuel r2) as [[v r3]|] eqn:V; [|discriminate]. apply IHv in V.
    destruct (skip_ws r3) as [|d r4] eqn:W4; [discriminate|]. apply skip_ws_cons in W4.
    destruct (code d =? 44)%Z.
    { intros E. apply IHm in E. lia. }
    destruct (code d =? 125)%Z; [|discriminate]. intros [= _ <-]. lia.
Qed.

Lemma value_fuel (fuel : nat) :
  (forall s fuel', 2 * String.length s + 1 <= fuel -> fuel <= fuel' -> value fuel' s = value fuel s) /\
  (forall s fuel', 2 * String.length s + 2 <= fuel -> fuel <= fuel' ->
                   elements fuel' s = elements fuel s) /\
  (forall acc s fuel', 2 * String.length s + 2 <= fuel -> fuel <= fuel' ->
                       members fuel' acc s = members fuel acc s).
Proof.
  induction fuel as [|fuel (IHv & IHe & IHm)]; [repeat split; intros; lia|].
  destruct (value_length fuel) as (Lv & Le & Lm).
  split; [|split].
  - intros s [|fuel'] B F; [lia|]. cbn [value].
    destruct (skip_ws s) as [|c s1] eqn:W; [reflexivity|].
    apply skip_ws_cons in W.
    destruct (code c =? 34)%Z; [reflexivity|].
    destruct (code c =? 91)%Z.
    { destruct (skip_ws s1) as [|c1 r1] eqn:W1; [reflexivity|].
      destruct (code c1 =? 93)%Z; [reflexivity|].
      now rewrite (IHe s1 fuel') by lia. }
    destruct (code c =? 123)%Z.
    { destruct (skip_ws s1) as [|c1 r1] eqn:W1; [reflexivity|].
      destruct (code c1 =? 125)%Z; [reflexivity|].
      now rewrite (IHm [] s1 fuel') by lia. }
    reflexivity.
  - intros s [|fuel'] B F; [lia|]. cbn [elements].
    rewrite (IHv s fuel') by lia.
    destruct (value fuel s) as [[v r0]|] eqn:V; [|reflexivity]. apply Lv in V.
    destruct (skip_ws r0) as [|c r1] eqn:W; [reflexivity|]. apply skip_ws_cons in W.
    destruct (code c =? 44)%Z; [|reflexivity].
    now rewrite (IHe r1 fuel') by lia.
  - intros acc s [|fuel'] B F; [lia|]. cbn [members].
    destruct (skip_ws s) as [|q s1] eqn:W; [reflexivity|]. apply skip_ws_cons in W.
    destruct (code q =? 34)%Z; [|reflexivity].
    destruct (parse_string s1) as [[k r1]|] eqn:P; [|reflexivity].
    apply parse_string_length in P.
    destruct (skip_ws r1) as [|c r2] eqn:W2; [reflexivity|]. apply skip_ws_cons in W2.
    destruct (code c =? 58)%Z; [|reflexivity].
    rewrite (IHv r2 fuel') by lia.
    destruct (value fuel r2) as [[v r3]|] eqn:V; [|reflexivity]. apply Lv in V.
    destruct (skip_ws r3) as [|d r4] eqn:W4; [reflexivity|]. apply skip_ws_cons in W4.
    destruct (code d =? 44)%Z; [|reflexivity].
    now rewrite (IHm _ r4 fuel') by lia.
Qed.

(** More fuel than [parse] gives changes nothing. *)
Theorem parse_fuel (text : string) (fuel : nat) :
  2 * String.length text + 2 <= fuel ->
  value fuel text = value (2 * String.length text + 2) text.
Proof.
  intros H. apply (proj1 (value_fuel (2 * String.length text + 2))); lia.
Qed.

End RefJSONFuel.

(** ** The two updaters of the history *)

Lemma prepend_array (r : ScanResult) (l : list JSValue) :
  prepend r (JArr l) = Ok (JArr (firstn 10 (object_of r :: l))).
Proof. reflexivity. Qed.

Lemma firstn_all_but_last {A : Type} (n : nat) (l : list A) :
  List.length l = S n -> exists oldest, l = firstn n l ++ [oldest].
Proof.
  revert l; induction n as [|n IH]; intros [|x l] H; simpl in H; try discriminate.
  - destruct l; [exists x; reflexivity | discriminate].
  - injection H as H. destruct (IH l H) as [oldest E].
    exists oldest. simpl. now rewrite <- E.
Qed.

Lemma filterM_length (f : JSValue -> outcome bool) (l kept : list JSValue) :
  filterM f l = Ok kept -> List.length kept <= List.length l.
Proof.
  revert kept; induction l as [|x l IH]; simpl; intros kept H.
  - injection H as <-. auto.
  - destruct (f x) as [keep|]; simpl in H; [|discriminate].
    destruct (filterM f l) as [k|]; simpl in H; [|discriminate].
    injection H as <-. specialize (IH k eq_refl).
    destruct keep; simpl; lia.
Qed.

Lemma without_array (i : string) (l : list JSValue) :
  Forall readable l -> without i (JArr l) = Ok (JArr (others i l)).
Proof.
  intros H. unfold without, array_filter.
  assert (E : filterM (fun item => item_id <- getProp item "id" ;;
                                   Ok (strict_neq_string item_id i)) l
              = Ok (others i l)).
  { induction H as [|x l [v Hx] _ IH]; simpl; [reflexivity|].
    rewrite Hx, IH. simpl. unfold has_id. rewrite Hx.
    destruct v; reflexivity. }
  now rewrite E.
Qed.

Lemma split_length (i : string) (l : list JSValue) :
  List.length (others i l) + List.length (matching i l) = List.length l.
Proof.
  unfold others, matching. induction l as [|x l IH]; simpl; [reflexivity|].
  destruct (has_id i x); simpl; lia.
Qed.

Lemma others_all (i : string) (l : list JSValue) :
  matching i l = [] -> others i l = l.
Proof.
  unfold others, matching. induction l as [|x l IH]; simpl; [reflexivity|].
  destruct (has_id i x); simpl; [discriminate|]. intros H. now rewrite IH.
Qed.

Lemma has_id_read (i : string) (x : JSValue) :
  has_id i x = true -> getProp x "id" = Ok (JStr i).
Proof.
  unfold has_id. destruct (getProp x "id") as [[]|]; try discriminate.
  intros H. apply String.eqb_eq in H. now subst.
Qed.

Lemma matching_distinct (i : string) (l : list JSValue) :
  NoDup (ids l) -> List.length (matching i l) <= 1.
Proof.
  unfold matching, ids. induction l as [|x l IH]; simpl; intros H; [lia|].
  inversion H as [|? ? Hx Hl]; subst.
  destruct (has_id i x) eqn:E; [|auto].
  apply has_id_read in E. simpl.
  assert (N : filter (has_id i) l = []).
  { clear -Hx E. induction l as [|y l IH]; simpl; [reflexivity|].
    destruct (has_id i y) eqn:Ey.
    - exfalso. apply Hx. simpl. left. apply has_id_read in Ey. congruence.
    - apply IH. intros HIn. apply Hx. simpl. now right. }
  rewrite N. simpl. lia.
Qed.

(** C3.  Prepending to a history of exactly ten items gives ten items: the
    new record at index 0, the former items 0..8 unchanged at indices
    1..9, the former item 9 and no other dropped.  In general the updater
    puts the new record in front and keeps the first ten of the result. *)
Theorem prepend_at_capacity (r : ScanResult) (l : list JSValue) :
  List.length l = 10 ->
  exists kept oldest,
    l = kept ++ [oldest] /\
    List.length kept = 9 /\
    prepend r (JArr l) = Ok (JArr (object_of r :: kept)) /\
    List.length (object_of r :: kept) = 10 /\
    nth_error (object_of r :: kept) 0 = Some (object_of r) /\
    (forall i, i < 9 -> nth_error (object_of r :: kept) (S i) = nth_error l i) /\
    (forall older : list JSValue,
        prepend r (JArr older) = Ok (JArr (object_of r :: firstn 9 older)) /\
        List.length (object_of r :: firstn 9 older) = Nat.min 10 (S (List.length older))).
Proof.
  intros H. destruct (firstn_all_but_last 9 l H) as [oldest E].
  exists (firstn 9 l), oldest.
  assert (L : List.length (firstn 9 l) = 9) by (rewrite length_firstn; lia).
  split; [exact E|]. split; [exact L|]. split; [reflexivity|].
  split; [cbn [List.length]; now rewrite L|]. split; [reflexivity|]. split.
  - intros i Hi. cbn [nth_error]. rewrite E at 2. now rewrite nth_error_app1 by lia.
  - intros older. split; [reflexivity|]. cbn [List.length]. rewrite length_firstn. lia.
Qed.

Lemma prepend_at_capacity_witness :
  exists kept oldest,
    map object_of (scans 10 1) = kept ++ [oldest] /\
    prepend (scan 11) (JArr (map object_of (scans 10 1)))
    = Ok (JArr (object_of (scan 11) :: kept)).
Proof.
  destruct (prepend_at_capacity (scan 11) (map object_of (scans 10 1)) eq_refl)
    as (kept & oldest & E & _ & P & _).
  exists kept, oldest. split; assumption.
Defined.

(** C5, as amended.  Removing by identifier raises no error on a history
    whose items can be read, and keeps, in order, exactly the items whose
    [id] is not the given string: every item with that [id] goes, which is
    at most one item when the [id]s are distinct, and nothing changes when
    no item has it. *)
Theorem delete_removes_matching (i : string) (l : list JSValue) :
  Forall readable l ->
  without i (JArr l) = Ok (JArr (others i l)) /\
  List.length (others i l) + List.length (matching i l) = List.length l /\
  (NoDup (ids l) -> List.length (matching i l) <= 1) /\
  (matching i l = [] -> others i l = l).
Proof.
  intros H. split; [now apply without_array|].
  split; [apply split_length|].
  split; [apply matching_distinct | apply others_all].
Qed.

Lemma readable_object_of (r : ScanResult) : readable (object_of r).
Proof. now exists (JStr (id r)). Qed.

Lemma delete_removes_matching_witness :
  without "3" (JArr (map object_of (scans 4 1)))
  = Ok (JArr (map object_of [scan 4; scan 2; scan 1])) /\
  without "7" (JArr (map object_of (scans 4 1)))
  = Ok (JArr (map object_of (scans 4 1))).
Proof.
  assert (R : Forall readable (map object_of (scans 4 1)))
    by (repeat constructor; apply readable_object_of).
  split.
  - exact (proj1 (delete_removes_matching "3" _ R)).
  - exact (proj1 (delete_removes_matching "7" _ R)).
Defined.

(** C5, the claim as stated fails: two scans made at equal clock readings
    carry the same [id], and deleting that [id] removes both. *)
Lemma delete_removes_two :
  exists w w',
    session None (one_call_out ++ [CallSettled 0 camry_reply 1700000000000 1700000000000;
                                   RecognizeClicked;
                                   CallSettled 0 camry_reply 1700000000000 1700000000001])
    = Some w /\
    array_length (history (app w)) = Some 2 /\
    step w (DeleteClicked "1700000000000") = Some w' /\
    array_length (history (app w')) = Some 0.
Proof.
  eexists. eexists. split; [vm_compute; reflexivity|].
  split; [reflexivity|]. split; [vm_compute; reflexivity | reflexivity].
Qed.

(** ** One turn of the event loop *)

(** Runs the queued updates of a turn as far as they compute. *)
Ltac turn H :=
  unfold react in H;
  cbn [updates update bind history image isProcessing result error] in H.

Section Turns.

Context {json : JSON}.

(** Updates that do not set the history leave it, and never throw. *)
Lemma updates_frame (acts : list Action) (s : AppState) :
  existsb sets_history acts = false ->
  exists s', updates s acts = Ok s' /\ history s' = history s.
Proof.
  revert s; induction acts as [|a acts IH]; intros s H.
  - now exists s.
  - simpl in H. apply orb_false_elim in H as [Ha H].
    destruct a; try discriminate; cbn [updates update bind];
      match goal with
      | |- exists s', updates ?t acts = _ /\ _ =>
          destruct (IH t H) as (s' & E & Eh); exists s'; split; [exact E | exact Eh]
      end.
Qed.

Lemma react_frame (w w' : World) (acts : list Action) (calls : list string) :
  existsb sets_history acts = false ->
  react w acts calls = Some w' ->
  history (app w') = history (app w) /\ storage w' = stored (storage w) acts.
Proof.
  intros H R. unfold react in R.
  destruct (updates_frame acts (app w) H) as (s' & E & Eh).
  rewrite E, H in R. injection R as <-. now split.
Qed.

Lemma react_outstanding (w w' : World) (acts : list Action) (calls : list string) :
  react w acts calls = Some w' -> outstanding w' = calls.
Proof.
  unfold react. destruct (updates (app w) acts); [|discriminate].
  now intros [= <-].
Qed.

(** What the actions make of [isProcessing]: the last value set, if any. *)
Lemma updates_isProcessing (acts : list Action) (s s' : AppState) :
  updates s acts = Ok s' ->
  isProcessing s' =
  fold_left (fun b a => match a with setIsProcessing b' => b' | _ => b end)
            acts (isProcessing s).
Proof.
  revert s; induction acts as [|a acts IH]; intros s H.
  - now injection H as <-.
  - cbn [updates bind] in H. destruct (update s a) as [t|] eqn:E; [|discriminate].
    cbn [bind] in H. rewrite (IH t H). cbn [fold_left]. f_equal.
    destruct a; cbn [update bind] in E;
      try (injection E as <-; reflexivity).
    destruct (f (history s)); [injection E as <-; reflexivity | discriminate].
Qed.

Lemma react_isProcessing (w w' : World) (acts : list Action) (calls : list string) :
  react w acts calls = Some w' ->
  isProcessing (app w') =
  fold_left (fun b a => match a with setIsProcessing b' => b' | _ => b end)
            acts (isProcessing (app w)).
Proof.
  unfold react. destruct (updates (app w) acts) as [s|] eqn:E; [|discriminate].
  intros [= <-]. now apply updates_isProcessing.
Qed.

(** The two shapes of what [processImage] does once its call has settled. *)
Lemma settled_cases (img : string) (reply : ServiceReply) (now1 now2 : Z) :
  (exists r, attempt img reply now1 now2 = Ok r /\
             processImage_settled img reply now1 now2
             = [setResult (Some r); setHistory (prepend r); setIsProcessing false]) \/
  (exists e, attempt img reply now1 now2 = Throw e /\
             processImage_settled img reply now1 now2
             = [setError (Some failure_message); setIsProcessing false]).
Proof.
  unfold processImage_settled. destruct (attempt img reply now1 now2) as [r|e].
  - left. now exists r.
  - right. now exists e.
Qed.

Lemma processImage_actions (s : AppState) (img : string) (acts : list Action) :
  processImage s = Some (img, acts) ->
  image s = Some img /\ acts = [setIsProcessing true; setError None].
Proof.
  unfold processImage. destruct (falsy (image s)); [discriminate|].
  destruct (image s) as [t|]; [|discriminate]. now intros [= <- <-].
Qed.

(** The history that a turn leaves, turn by turn. *)
Lemma step_history (w w' : World) (ev : Event) :
  step w ev = Some w' ->
  history (app w') = history (app w) \/
  history (app w') = JArr [] \/
  (exists r, prepend r (history (app w)) = Ok (history (app w'))) \/
  (exists i, without i (history (app w)) = Ok (history (app w'))).
Proof.
  destruct ev as [read| | |i reply now1 now2|confirmed|i]; cbn [step]; intros H.
  - left. now apply react_frame in H.
  - destruct (image_shown (app w)); [|injection H as <-; now left].
    left. now apply react_frame in H.
  - destruct (image_shown (app w) && negb (isProcessing (app w)));
      [|injection H as <-; now left].
    destruct (processImage (app w)) as [[img acts]|] eqn:P; [|injection H as <-; now left].
    apply processImage_actions in P as [_ ->]. left. now apply react_frame in H.
  - destruct (nth_error (outstanding w) i) as [img|]; [|injection H as <-; now left].
    destruct (settled_cases img reply now1 now2) as [(r & _ & E)|(e & _ & E)];
      rewrite E in H.
    + right; right; left. exists r. turn H.
      destruct (prepend r (history (app w))) as [h|]; [|discriminate].
      turn H. now injection H as <-.
    + left. now apply react_frame in H.
  - destruct (history_shown (app w)); [|injection H as <-; now left].
    destruct confirmed; cbn [clearHistory] in H.
    + right; left. unfold react in H. cbn in H. now injection H as <-.
    + left. now apply react_frame in H.
  - destruct (deletable (app w) i); [|injection H as <-; now left].
    right; right; right. exists i. unfold deleteHistoryItem in H. turn H.
    destruct (without i (history (app w))) as [h|]; [|discriminate].
    turn H. now injection H as <-.
Qed.

Lemma step_capped (n : nat) (w w' : World) (ev : Event) :
  10 <= n ->
  capped n (history (app w)) -> step w ev = Some w' -> capped n (history (app w')).
Proof.
  intros Hn (l & E & Hl) H.
  destruct (step_history w w' ev H) as [-> | [-> | [(r & P) | (i & P)]]].
  - now exists l.
  - exists []. split; [reflexivity | simpl; lia].
  - rewrite E, prepend_array in P. injection P as <-.
    exists (firstn 10 (object_of r :: l)). split; [reflexivity|].
    rewrite length_firstn. lia.
  - rewrite E in P. unfold without, array_filter in P.
    match type of P with
    | bind ?m _ = _ => destruct m as [kept|] eqn:F; [|discriminate]
    end.
    cbn [bind] in P. injection P as <-. apply filterM_length in F.
    exists kept. split; [reflexivity | lia].
Qed.

Lemma run_capped (n : nat) (evs : list Event) (w w' : World) :
  10 <= n ->
  capped n (history (app w)) -> run w evs = Some w' -> capped n (history (app w')).
Proof.
  intros Hn. revert w; induction evs as [|ev evs IH]; intros w C H.
  - now injection H as <-.
  - cbn [run] in H. destruct (step w ev) as [w1|] eqn:S; [|discriminate].
    eapply IH; [|exact H]. eapply step_capped; eauto.
Qed.

(** What mounting restores. *)
Lemma mount_cases (saved : option string) :
  (exists t v, saved = Some t /\ t <> "" /\ JSON_parse t = Ok v /\
               mount saved =
               Some {| app := {| image := None; isProcessing := false; result := None;
                                 history := v; error := None |};
                       storage := saveHistory {| image := None; isProcessing := false;
                                                 result := None; history := v;
                                                 error := None |};
                       outstanding := [] |}) \/
  (loadHistory saved = [] /\
   mount saved = Some {| app := initialState; storage := saveHistory initialState;
                         outstanding := [] |}).
Proof.
  unfold mount, loadHistory. destruct saved as [t|]; [|now right].
  cbn [falsy]. destruct (t =? "") eqn:E; [now right|].
  destruct (JSON_parse t) as [v|e] eqn:P; [|now right].
  left. exists t, v. repeat split; auto. intros ->. discriminate.
Qed.

Lemma mount_total (saved : option string) : exists w, mount saved = Some w.
Proof.
  destruct (mount_cases saved) as [(t & v & _ & _ & _ & E)|[_ E]]; rewrite E; eauto.
Qed.

End Turns.

(** ** The history and its bound *)

Section History.

Context {json : JSON}.

(** What the load restores: the parsed value, as it is. *)
Lemma mount_restores (saved : option string) (w0 : World) (t : string) (v : JSValue) :
  mount saved = Some w0 ->
  saved = Some t -> t <> "" -> JSON_parse t = Ok v ->
  history (app w0) = v.
Proof.
  intros M -> T P. unfold mount, loadHistory in M. cbn [falsy] in M.
  destruct (t =? "") eqn:E; [apply String.eqb_eq in E; contradiction|].
  rewrite P in M. unfold react in M. cbn in M. now injection M as <-.
Qed.

(** C1, as amended.  The load puts back the stored collection as it is,
    without trimming it; from there on, in every session, the history
    stays an array of at most [n] items for any [n >= 10] that bounds what
    the load left: a prepend keeps ten, a removal and a clear only
    shorten.  With [n = 10]: the history has at most ten items at all times
    when the load restored at most ten. *)
Theorem history_capped_after_load
  (n : nat) (saved : option string) (evs : list Event) (w0 w : World) :
  10 <= n ->
  mount saved = Some w0 ->
  capped n (history (app w0)) ->
  run w0 evs = Some w ->
  capped n (history (app w)) /\
  (forall t v, saved = Some t -> t <> "" -> JSON_parse t = Ok v ->
               history (app w0) = v).
Proof.
  intros Hn M C R. split; [now apply (run_capped n evs w0 w)|].
  intros t v. now apply mount_restores.
Qed.

(** C9.  When the stored entry is absent, or present but rejected by
    [JSON.parse] (or empty, which is not even parsed), mounting succeeds
    with an empty history and no error to show: the component is in its
    initial state. *)
Theorem load_falls_back_to_empty (saved : option string) :
  saved = None \/ (exists t e, saved = Some t /\ JSON_parse t = Throw e) \/
  saved = Some "" ->
  exists w,
    mount saved = Some w /\
    history (app w) = JArr [] /\
    array_length (history (app w)) = Some 0 /\
    error (app w) = None /\
    app w = initialState.
Proof.
  intros H.
  destruct (mount_cases saved) as [(t & v & -> & N & P & _)|[_ E]].
  - exfalso. destruct H as [H|[(t' & e & [= <-] & P')|[= H]]];
      [discriminate | congruence | contradiction].
  - rewrite E. eexists. repeat split.
Qed.

End History.

Lemma stored_scans_one :
  stored_scans 1 = RefJSON.text
    "[{'id':'1700000000000','timestamp':1700000000000,'imageUrl':'data:image/jpeg;base64,AAAA','plateNumber':'ABC123','region':'CA','vehicle':{'make':'Toyota','model':'Camry','color':'Blue','type':'Sedan'},'confidence':'High'}]".
Proof. vm_compute. reflexivity. Qed.

Lemma stored_scans_parse (k : nat) :
  k <= 12 -> JSON_parse (stored_scans k) = Ok (JArr (map object_of (scans k 1700000000000))).
Proof.
  intros H. do 13 (destruct k as [|k]; [vm_compute; reflexivity|]). lia.
Qed.

Lemma history_capped_after_load_witness :
  exists w0 w,
    mount (Some (stored_scans 10)) = Some w0 /\
    run w0 (one_call_out ++ [CallSettled 0 camry_reply 1700000000010 1700000000010;
                             DeleteClicked "1700000000004"]) = Some w /\
    capped 10 (history (app w)).
Proof.
  eexists. eexists. split; [vm_compute; reflexivity|]. split; [vm_compute; reflexivity|].
  eapply (history_capped_after_load 10 (Some (stored_scans 10))
            (one_call_out ++ [CallSettled 0 camry_reply 1700000000010 1700000000010;
                              DeleteClicked "1700000000004"])).
  - lia.
  - vm_compute. reflexivity.
  - eexists. split; [reflexivity|]. vm_compute. lia.
  - vm_compute. reflexivity.
Defined.

(** C1, the claim as stated fails right after the load: a stored
    collection of eleven scans is restored as eleven. *)
Lemma load_restores_eleven :
  exists w,
    session (Some (stored_scans 11)) [] = Some w /\
    array_length (history (app w)) = Some 11 /\
    ~ capped 10 (history (app w)).
Proof.
  eexists. split; [vm_compute; reflexivity|]. split; [reflexivity|].
  intros (l & E & H). injection E as <-. vm_compute in H. lia.
Qed.

Lemma load_falls_back_to_empty_witness :
  (exists w, mount None = Some w /\ history (app w) = JArr []) /\
  (exists w, mount (Some "{oops") = Some w /\ history (app w) = JArr []).
Proof.
  split.
  - destruct (load_falls_back_to_empty None (or_introl eq_refl)) as (w & M & H & _).
    now exists w.
  - assert (U : Some "{oops" = None \/
                (exists t e, Some "{oops" = Some t /\ JSON_parse t = Throw e) \/
                Some "{oops" = Some "")
      by (right; left; exists "{oops", SyntaxError; split; reflexivity).
    destruct (load_falls_back_to_empty (Some "{oops") U) as (w & M & H & _).
    now exists w.
Defined.

(** ** One recognition at a time *)

Section Recognition.

Context {json : JSON}.

(** What a turn does to the flag and to the outstanding calls. *)
Lemma step_flight (w w' : World) (ev : Event) :
  step w ev = Some w' ->
  (isProcessing (app w') = isProcessing (app w) /\ outstanding w' = outstanding w) \/
  (ev = RecognizeClicked /\ isProcessing (app w) = false /\
   isProcessing (app w') = true /\
   exists img, image (app w) = Some img /\ outstanding w' = outstanding w ++ [img]) \/
  (exists i img reply now1 now2,
      ev = CallSettled i reply now1 now2 /\
      nth_error (outstanding w) i = Some img /\
      isProcessing (app w') = false /\
      outstanding w' = remove_nth i (outstanding w)).
Proof.
  destruct ev as [read| | |i reply now1 now2|confirmed|i]; cbn [step]; intros H.
  - left. split; [now rewrite (react_isProcessing _ _ _ _ H) | now apply react_outstanding in H].
  - destruct (image_shown (app w)); [|injection H as <-; now left].
    left. split; [now rewrite (react_isProcessing _ _ _ _ H) | now apply react_outstanding in H].
  - destruct (image_shown (app w) && negb (isProcessing (app w))) eqn:G;
      [|injection H as <-; now left].
    destruct (processImage (app w)) as [[img acts]|] eqn:P; [|injection H as <-; now left].
    apply processImage_actions in P as [I ->].
    right; left. apply andb_prop in G as [_ G]. apply negb_true_iff in G.
    repeat split; auto.
    + now rewrite (react_isProcessing _ _ _ _ H).
    + exists img. split; [exact I | now apply react_outstanding in H].
  - destruct (nth_error (outstanding w) i) as [img|] eqn:N; [|injection H as <-; now left].
    right; right. exists i, img, reply, now1, now2. repeat split; auto.
    + rewrite (react_isProcessing _ _ _ _ H).
      destruct (settled_cases img reply now1 now2) as [(r & _ & E)|(e & _ & E)];
        now rewrite E.
    + now apply react_outstanding in H.
  - destruct (history_shown (app w)); [|injection H as <-; now left].
    left. split; [|now apply react_outstanding in H].
    rewrite (react_isProcessing _ _ _ _ H). now destruct confirmed.
  - destruct (deletable (app w) i); [|injection H as <-; now left].
    left. split; [now rewrite (react_isProcessing _ _ _ _ H) | now apply react_outstanding in H].
Qed.

Lemma nth_error_single {A : Type} (x y : A) (i : nat) :
  nth_error [x] i = Some y -> i = 0.
Proof. destruct i as [|[|i]]; simpl; congruence. Qed.

Lemma step_single_flight (w w' : World) (ev : Event) :
  single_flight w -> step w ev = Some w' -> single_flight w'.
Proof.
  intros I H.
  destruct (step_flight w w' ev H)
    as [[P O] | [(_ & P & P' & img & _ & O) | (i & img & reply & n1 & n2 & _ & N & P' & O)]].
  - unfold single_flight. now rewrite P, O.
  - right. split; [exact P'|]. exists img.
    destruct I as [[_ E]|[E _]]; [now rewrite O, E | congruence].
  - left. split; [exact P'|].
    destruct I as [[_ E]|[_ (img0 & E)]]; rewrite E in N.
    + destruct i; discriminate.
    + rewrite O, E. now rewrite (nth_error_single _ _ _ N).
Qed.

Lemma run_single_flight (evs : list Event) (w w' : World) :
  single_flight w -> run w evs = Some w' -> single_flight w'.
Proof.
  revert w; induction evs as [|ev evs IH]; intros w I H.
  - now injection H as <-.
  - cbn [run] in H. destruct (step w ev) as [w1|] eqn:S; [|discriminate].
    eapply IH; [|exact H]. eapply step_single_flight; eauto.
Qed.

Lemma mount_single_flight (saved : option string) (w : World) :
  mount saved = Some w -> single_flight w.
Proof.
  destruct (mount_cases saved) as [(t & v & _ & _ & _ & E)|[_ E]]; rewrite E;
    intros [= <-]; now left.
Qed.

(** What the settling of a call leaves, by the outcome of the attempt. *)
Lemma settle_success (w : World) (i : nat) (img : string) (reply : ServiceReply)
  (now1 now2 : Z) (r : ScanResult) (h : JSValue) :
  nth_error (outstanding w) i = Some img ->
  attempt img reply now1 now2 = Ok r ->
  prepend r (history (app w)) = Ok h ->
  step w (CallSettled i reply now1 now2) =
  Some {| app := {| image := image (app w); isProcessing := false; result := Some r;
                    history := h; error := error (app w) |};
          storage := saveHistory {| image := image (app w); isProcessing := false;
                                    result := Some r; history := h;
                                    error := error (app w) |};
          outstanding := remove_nth i (outstanding w) |}.
Proof.
  intros N A P. cbn [step]. rewrite N. unfold processImage_settled. rewrite A.
  unfold react. cbn [updates update bind history image isProcessing result error].
  rewrite P. reflexivity.
Qed.

Lemma settle_failure (w : World) (i : nat) (img : string) (reply : ServiceReply)
  (now1 now2 : Z) (e : exn) :
  nth_error (outstanding w) i = Some img ->
  attempt img reply now1 now2 = Throw e ->
  step w (CallSettled i reply now1 now2) =
  Some {| app := {| image := image (app w); isProcessing := false; result := result (app w);
                    history := history (app w); error := Some failure_message |};
          storage := storage w;
          outstanding := remove_nth i (outstanding w) |}.
Proof.
  intros N A. cbn [step]. rewrite N. unfold processImage_settled. rewrite A.
  reflexivity.
Qed.

(** When [recognizePlate] throws. *)
Lemma recognizePlate_throws (reply : ServiceReply) :
  no_usable_payload reply \/ unparsable reply ->
  exists e, recognizePlate reply = Throw e.
Proof.
  intros [[-> | (text & -> & F)] | (t & e & -> & _ & P)].
  - now exists Rejected.
  - exists (Error "Failed to get response from AI"). unfold recognizePlate.
    now rewrite F.
  - unfold recognizePlate. destruct (falsy (Some t)); eauto.
Qed.

(** When it returns: the text is there, not empty, and parses; what it
    returns is the parsed value. *)
Lemma recognizePlate_returns (reply : ServiceReply) (data : JSValue) :
  recognizePlate reply = Ok data <->
  exists t, reply = Response (Some t) /\ t <> "" /\ JSON_parse t = Ok data.
Proof.
  split.
  - destruct reply as [|[t|]]; cbn [recognizePlate falsy]; try discriminate.
    destruct (t =? "") eqn:E; [discriminate|]. intros P.
    exists t. repeat split; auto. intros ->. discriminate.
  - intros (t & -> & N & P). cbn [recognizePlate falsy].
    destruct (t =? "") eqn:E; [|exact P].
    apply String.eqb_eq in E. contradiction.
Qed.

(** The settling of an outstanding call clears the flag. *)
Lemma settle_idle (w w' : World) (i : nat) (img : string) (reply : ServiceReply)
  (now1 now2 : Z) :
  nth_error (outstanding w) i = Some img ->
  step w (CallSettled i reply now1 now2) = Some w' ->
  isProcessing (app w') = false /\ outstanding w' = remove_nth i (outstanding w).
Proof.
  intros N. cbn [step]. rewrite N. intros H. split.
  - rewrite (react_isProcessing _ _ _ _ H).
    destruct (settled_cases img reply now1 now2) as [(r & _ & E)|(e & _ & E)];
      now rewrite E.
  - now apply react_outstanding in H.
Qed.

(** C6.  In every session at most one call is outstanding, and the flag
    is set exactly while one is; while it is set, a click on the recognize
    button changes nothing; the settling of the call, on a success or on a
    failure, clears the flag and leaves no call outstanding, and no other
    event clears it; the result and the history are then those of that
    outcome alone: the new record and the history with it in front, or
    both as they were. *)
Theorem one_call_at_a_time (saved : option string) (evs : list Event) (w : World) :
  session saved evs = Some w ->
  single_flight w /\
  List.length (outstanding w) <= 1 /\
  (isProcessing (app w) = true -> step w RecognizeClicked = Some w) /\
  (forall reply now1 now2 w',
      isProcessing (app w) = true ->
      step w (CallSettled 0 reply now1 now2) = Some w' ->
      isProcessing (app w') = false /\ outstanding w' = []) /\
  (forall ev w',
      isProcessing (app w) = true -> step w ev = Some w' ->
      isProcessing (app w') = false ->
      exists img reply now1 now2,
        outstanding w = [img] /\ ev = CallSettled 0 reply now1 now2 /\
        outstanding w' = [] /\
        ((exists r, attempt img reply now1 now2 = Ok r /\
                    result (app w') = Some r /\
                    prepend r (history (app w)) = Ok (history (app w'))) \/
         (exists e, attempt img reply now1 now2 = Throw e /\
                    result (app w') = result (app w) /\
                    history (app w') = history (app w)))).
Proof.
  unfold session. destruct (mount saved) as [w0|] eqn:M; [|discriminate]. intros R.
  assert (I : single_flight w)
    by (eapply run_single_flight; [eapply mount_single_flight|]; eauto).
  split; [exact I|]. split; [|split; [|split]].
  - destruct I as [[_ ->]|[_ (img & ->)]]; simpl; lia.
  - intros P. cbn [step]. rewrite P. now rewrite andb_false_r.
  - intros reply now1 now2 w' P S.
    destruct I as [[E _]|[_ (img & O)]]; [congruence|].
    assert (N : nth_error (outstanding w) 0 = Some img) by now rewrite O.
    destruct (settle_idle w w' 0 img reply now1 now2 N S) as [Q O'].
    split; [exact Q | now rewrite O', O].
  - intros ev w' P S P'.
    destruct I as [[E _]|[_ (img & O)]]; [congruence|].
    destruct (step_flight w w' ev S)
      as [[Q _] | [(_ & Q & _) | (i & img' & reply & n1 & n2 & -> & N & _ & O')]];
      [congruence | congruence |].
    rewrite O in N. pose proof (nth_error_single _ _ _ N) as ->.
    injection N as <-. exists img, reply, n1, n2.
    split; [exact O|]. split; [reflexivity|]. split; [now rewrite O', O|].
    assert (N : nth_error (outstanding w) 0 = Some img) by now rewrite O.
    destruct (attempt img reply n1 n2) as [r|e] eqn:A.
    + left. exists r. split; [reflexivity|].
      destruct (prepend r (history (app w))) as [h|e] eqn:Pr.
      * rewrite (settle_success w 0 img reply n1 n2 r h N A Pr) in S.
        injection S as <-. now split.
      * exfalso. cbn [step] in S. rewrite N in S. unfold processImage_settled in S.
        rewrite A in S. turn S. rewrite Pr in S. discriminate.
    + right. exists e. split; [reflexivity|].
      rewrite (settle_failure w 0 img reply n1 n2 e N A) in S.
      injection S as <-. now split.
Qed.



(** C8.  When the reply parses to a value with the seven fields, the
    settling of the call makes a record with [plateNumber], [region], the
    four [vehicle] fields and [confidence] equal to the reply's, shows it
    as the result, and puts it at index 0 of the history: the item at
    index 0 reads [plateNumber], [region] and [confidence] as the reply's
    strings, its [vehicle] is an object that reads [make], [model],
    [color] and [type] as the reply's, and its [id], [timestamp] and
    [imageUrl] are the first clock reading as a string, the second
    reading, and the image of the call. *)
Theorem recognition_builds_record
  (w : World) (i : nat) (img t : string) (data : JSValue) (d : RecognitionData.t)
  (now1 now2 : Z) (l : list JSValue) :
  nth_error (outstanding w) i = Some img ->
  t <> "" ->
  JSON_parse t = Ok data ->
  has_shape data d ->
  history (app w) = JArr l ->
  exists w' r,
    step w (CallSettled i (Response (Some t)) now1 now2) = Some w' /\
    result (app w') = Some r /\
    plateNumber r = JStr (RecognitionData.plate_number d) /\
    region r = JStr (RecognitionData.region d) /\
    vehicle r = {| make := JStr (RecognitionData.vehicle_make d);
                   model := JStr (RecognitionData.vehicle_model d);
                   color := JStr (RecognitionData.vehicle_color d);
                   type := JStr (RecognitionData.vehicle_type d) |} /\
    confidence r = JStr (RecognitionData.confidence_score d) /\
    imageUrl r = img /\
    exists rest, history (app w') = JArr (object_of r :: rest) /\
                 nth_error (object_of r :: rest) 0 = Some (object_of r) /\
    exists item veh,
      nth_error (object_of r :: rest) 0 = Some item /\
      getProp item "plateNumber" = Ok (JStr (RecognitionData.plate_number d)) /\
      getProp item "region" = Ok (JStr (RecognitionData.region d)) /\
      getProp item "vehicle" = Ok veh /\
      getProp veh "make" = Ok (JStr (RecognitionData.vehicle_make d)) /\
      getProp veh "model" = Ok (JStr (RecognitionData.vehicle_model d)) /\
      getProp veh "color" = Ok (JStr (RecognitionData.vehicle_color d)) /\
      getProp veh "type" = Ok (JStr (RecognitionData.vehicle_type d)) /\
      getProp item "confidence" = Ok (JStr (RecognitionData.confidence_score d)) /\
      getProp item "id" = Ok (JStr (Number_toString now1)) /\
      getProp item "timestamp" = Ok (JNum now2 0) /\
      getProp item "imageUrl" = Ok (JStr img).
Proof.
  intros N T P S H.
  assert (R : recognizePlate (Response (Some t)) = Ok data)
    by (apply recognizePlate_returns; now exists t).
  unfold has_shape, required in S. cbn [map] in S.
  injection S as S1 S2 S3 S4 S5 S6 S7.
  pose (r := {| id := Number_toString now1; timestamp := now2; imageUrl := img;
                plateNumber := JStr (RecognitionData.plate_number d);
                region := JStr (RecognitionData.region d);
                vehicle := {| make := JStr (RecognitionData.vehicle_make d);
                              model := JStr (RecognitionData.vehicle_model d);
                              color := JStr (RecognitionData.vehicle_color d);
                              type := JStr (RecognitionData.vehicle_type d) |};
                confidence := JStr (RecognitionData.confidence_score d) |}).
  assert (A : attempt img (Response (Some t)) now1 now2 = Ok r).
  { unfold attempt. rewrite R. cbn [bind]. unfold newResult.
    rewrite S1, S2, S3, S4, S5, S6, S7. reflexivity. }
  assert (Pr : prepend r (history (app w)) = Ok (JArr (object_of r :: firstn 9 l)))
    by now rewrite H.
  rewrite (settle_success w i img _ now1 now2 r _ N A Pr).
  eexists. exists r. repeat split. exists (firstn 9 l).
  split; [reflexivity|]. split; [reflexivity|].
  exists (object_of r), (JObj [("make", make (vehicle r)); ("model", model (vehicle r));
                               ("color", color (vehicle r)); ("type", type (vehicle r))]).
  repeat split.
Qed.

End Recognition.

Lemma session_waiting (k : nat) :
  k <= 2 ->
  session (Some (stored_scans k)) one_call_out = Some (waiting (scans k 1700000000000)).
Proof.
  intros H. do 3 (destruct k as [|k]; [vm_compute; reflexivity|]). lia.
Qed.

Lemma one_call_at_a_time_witness :
  session None one_call_out = Some (waiting []) /\
  single_flight (waiting []) /\
  step (waiting []) RecognizeClicked = Some (waiting []).
Proof.
  assert (S : session None one_call_out = Some (waiting [])) by (vm_compute; reflexivity).
  destruct (one_call_at_a_time None one_call_out (waiting []) S) as (I & _ & R & _).
  split; [exact S|]. split; [exact I | exact (R eq_refl)].
Defined.


Lemma camry_text_parse :
  JSON_parse camry_text =
  Ok (JObj [("plate_number", JStr "ABC123"); ("region", JStr "CA");
            ("vehicle_make", JStr "Toyota"); ("vehicle_model", JStr "Camry");
            ("vehicle_color", JStr "Blue"); ("vehicle_type", JStr "Sedan");
            ("confidence_score", JStr "High")]).
Proof. vm_compute. reflexivity. Qed.

Lemma camry_text_filled : camry_text <> "".
Proof. vm_compute. discriminate. Qed.

Lemma recognition_builds_record_witness :
  exists w' r,
    step (waiting []) (CallSettled 0 camry_reply 1700000000000 1700000000000) = Some w' /\
    result (app w') = Some r /\
    plateNumber r = JStr "ABC123" /\
    vehicle r = {| make := JStr "Toyota"; model := JStr "Camry";
                   color := JStr "Blue"; type := JStr "Sedan" |} /\
    confidence r = JStr "High" /\
    exists rest, history (app w') = JArr (object_of r :: rest) /\
    exists item veh,
      nth_error (object_of r :: rest) 0 = Some item /\
      getProp item "plateNumber" = Ok (JStr "ABC123") /\
      getProp item "vehicle" = Ok veh /\
      getProp veh "make" = Ok (JStr "Toyota") /\
      getProp veh "model" = Ok (JStr "Camry") /\
      getProp veh "color" = Ok (JStr "Blue") /\
      getProp veh "type" = Ok (JStr "Sedan") /\
      getProp item "confidence" = Ok (JStr "High").
Proof.
  destruct (recognition_builds_record (waiting []) 0 picture camry_text _ camry
              1700000000000 1700000000000 [] eq_refl camry_text_filled camry_text_parse
              eq_refl eq_refl)
    as (w' & r & S & R & P & _ & V & C & _ & rest & H & _ & item & veh & I0 & Ip & _ & Iv
        & Vm & Vo & Vc & Vt & Ic & _).
  exists w', r. split; [exact S|]. split; [exact R|]. split; [exact P|].
  split; [exact V|]. split; [exact C|]. exists rest. split; [exact H|].
  exists item, veh. repeat split; assumption.
Defined.

(** ** The reply and the record made of it *)

Section Reply.

Context {json : JSON}.

Lemma recognizePlate_throws_only (reply : ServiceReply) (e : exn) :
  recognizePlate reply = Throw e -> no_usable_payload reply \/ unparsable reply.
Proof.
  destruct reply as [|[t|]]; cbn [recognizePlate falsy].
  - intros _. left. now left.
  - destruct (t =? "") eqn:E.
    + intros _. left. right. exists (Some t). now split.
    + intros P. right. exists t, e. repeat split; auto. intros ->. discriminate.
  - intros _. left. right. now exists None.
Qed.

Lemma newResult_reads (img : string) (now1 now2 : Z) (data : JSValue) :
  data <> JNull -> data <> JUndefined ->
  exists r,
    newResult img now1 now2 data = Ok r /\
    id r = Number_toString now1 /\ timestamp r = now2 /\ imageUrl r = img /\
    map Ok [plateNumber r; region r; make (vehicle r); model (vehicle r);
            color (vehicle r); type (vehicle r); confidence r]
    = map (getProp data) required.
Proof.
  intros N U. unfold newResult, required.
  destruct data; try contradiction; cbn [getProp bind map];
    eexists; (split; [reflexivity|]); repeat split.
Qed.

(** C2, as amended.  The call fails exactly when the service gave no usable
    payload or an unparsable one; when the text parses, the call returns
    the parsed value as it is, whatever fields it has: nothing is checked
    against the seven required names.  Unless that value is [null], the
    controller then makes a record of it, each of the seven fields holding
    what the property of that name reads, [undefined] where it is missing. *)
Theorem reply_not_validated (reply : ServiceReply) :
  ((exists e, recognizePlate reply = Throw e) <->
   no_usable_payload reply \/ unparsable reply) /\
  (forall data,
      recognizePlate reply = Ok data <->
      exists t, reply = Response (Some t) /\ t <> "" /\ JSON_parse t = Ok data) /\
  (forall data img now1 now2,
      recognizePlate reply = Ok data -> data <> JNull -> data <> JUndefined ->
      exists r,
        attempt img reply now1 now2 = Ok r /\
        map Ok [plateNumber r; region r; make (vehicle r); model (vehicle r);
                color (vehicle r); type (vehicle r); confidence r]
        = map (getProp data) required).
Proof.
  split; [|split].
  - split; [intros [e E]; now apply (recognizePlate_throws_only reply e)
           | apply recognizePlate_throws].
  - intros data. apply recognizePlate_returns.
  - intros data img now1 now2 R N U.
    destruct (newResult_reads img now1 now2 data N U) as (r & E & _ & _ & _ & F).
    exists r. split; [|exact F]. unfold attempt. now rewrite R.
Qed.

(** C4, on the code: a confirmed clear empties the history, and the stored
    entry is there afterwards: [removeItem] runs in the handler, and the
    save effect that the new history triggers writes the entry again. *)
Theorem clear_writes_entry_back (w : World) :
  history_shown (app w) = true ->
  exists w',
    step w (ClearClicked true) = Some w' /\
    history (app w') = JArr [] /\
    array_length (history (app w')) = Some 0 /\
    storage w' = saveHistory (app w') /\
    storage w' <> None.
Proof.
  intros H. cbn [step]. rewrite H. unfold react, clearHistory.
  cbn [updates update bind value existsb sets_history orb].
  eexists. split; [reflexivity|]. cbn [app history storage array_length List.length].
  repeat split. unfold saveHistory. cbn [history].
  destruct (JSON_stringify (JArr [])); discriminate.
Qed.

Lemma Number_toString_inj (n n' : Z) :
  Number_toString n = Number_toString n' -> n = n'.
Proof.
  unfold Number_toString. intros H.
  assert (P : forall z, NilZero.int_of_string (NilZero.string_of_int (Z.to_int z))
                        = Some (Z.to_int z)).
  { intros z. apply NilZero.isi; rewrite <- (DecimalZ.of_to z), DecimalZ.to_of.
    - destruct (Z.to_int z) as [u|u]; cbn [Decimal.norm].
      + intros [= E]. now apply (DecimalFacts.unorm_nonnil u).
      + destruct (Decimal.nzhead u); discriminate.
    - destruct (Z.to_int z) as [u|u]; cbn [Decimal.norm].
      + discriminate.
      + destruct (Decimal.nzhead u) eqn:E; discriminate. }
  apply DecimalZ.to_int_inj.
  pose proof (P n) as Pn. rewrite H, P in Pn. now injection Pn.
Qed.

(** C10, as amended.  The [id] of a record is the decimal string of the
    first clock reading of its making, and its [timestamp] is the second
    reading: the [id] is the string of the [timestamp] exactly when the two
    readings are the same.  The [id] depends on that reading alone: two
    records made at the same first reading share it. *)
Theorem id_from_first_reading
  (img : string) (reply : ServiceReply) (now1 now2 : Z) (r : ScanResult) :
  attempt img reply now1 now2 = Ok r ->
  id r = Number_toString now1 /\
  timestamp r = now2 /\
  (id r = Number_toString (timestamp r) <-> now1 = now2) /\
  (forall img' reply' now2' r',
      attempt img' reply' now1 now2' = Ok r' -> id r' = id r).
Proof.
  assert (G : forall i p n1 n2 x, attempt i p n1 n2 = Ok x ->
                                  id x = Number_toString n1 /\ timestamp x = n2).
  { intros i p n1 n2 x. unfold attempt.
    destruct (recognizePlate p) as [data|]; cbn [bind]; [|discriminate].
    unfold newResult.
    repeat match goal with
           | |- context [getProp ?d ?k] => destruct (getProp d k); cbn [bind]; [|discriminate]
           end.
    intros [= <-]. now split. }
  intros A. destruct (G _ _ _ _ _ A) as [I T]. split; [exact I|]. split; [exact T|]. split.
  - rewrite I, T. split; [apply Number_toString_inj | now intros ->].
  - intros img' reply' now2' r' A'. destruct (G _ _ _ _ _ A') as [I' _]. congruence.
Qed.

End Reply.

Lemma reply_not_validated_witness :
  recognizePlate camry_reply =
  Ok (JObj [("plate_number", JStr "ABC123"); ("region", JStr "CA");
            ("vehicle_make", JStr "Toyota"); ("vehicle_model", JStr "Camry");
            ("vehicle_color", JStr "Blue"); ("vehicle_type", JStr "Sedan");
            ("confidence_score", JStr "High")]).
Proof.
  apply (proj1 (proj2 (reply_not_validated camry_reply))).
  exists camry_text. split; [reflexivity|]. split; [apply camry_text_filled|].
  apply camry_text_parse.
Defined.

(** C2, the claim as stated fails: a reply with one of the seven fields is
    returned without error, and the record made of it, with the other six
    [undefined], becomes the result and the first item of the history. *)
Lemma partial_reply_accepted :
  let reply := Response (Some (RefJSON.text "{'plate_number':'ABC123'}")) in
  let partial :=
    {| id := "1700000000000"; timestamp := 1700000000000; imageUrl := picture;
       plateNumber := JStr "ABC123"; region := JUndefined;
       vehicle := {| make := JUndefined; model := JUndefined;
                     color := JUndefined; type := JUndefined |};
       confidence := JUndefined |} in
  recognizePlate reply = Ok (JObj [("plate_number", JStr "ABC123")]) /\
  missing (JObj [("plate_number", JStr "ABC123")]) "region" /\
  exists w',
    step (waiting []) (CallSettled 0 reply 1700000000000 1700000000000) = Some w' /\
    result (app w') = Some partial /\
    history (app w') = JArr [object_of partial] /\
    error (app w') = None.
Proof.
  cbv zeta. split; [vm_compute; reflexivity|]. split; [reflexivity|].
  eexists. split; [vm_compute; reflexivity|]. repeat split.
Qed.

Lemma clear_writes_entry_back_witness :
  exists w',
    step (waiting (scans 2 1700000000000)) (ClearClicked true) = Some w' /\
    array_length (history (app w')) = Some 0 /\
    storage w' = Some "[]" /\
    exists w'', mount (storage w') = Some w'' /\ history (app w'') = JArr [].
Proof.
  destruct (clear_writes_entry_back (waiting (scans 2 1700000000000)) eq_refl)
    as (w' & S & H & L & St & _).
  exists w'. split; [exact S|]. split; [exact L|].
  assert (E : storage w' = Some "[]") by (rewrite St; unfold saveHistory; now rewrite H).
  split; [exact E|]. rewrite E. eexists. split; reflexivity.
Defined.

Lemma id_from_first_reading_witness :
  exists r,
    attempt picture camry_reply 1700000000000 1700000000000 = Ok r /\
    id r = "1700000000000" /\
    id r = Number_toString (timestamp r).
Proof.
  exists (scan 1700000000000).
  assert (A : attempt picture camry_reply 1700000000000 1700000000000
              = Ok (scan 1700000000000)) by (vm_compute; reflexivity).
  destruct (id_from_first_reading _ _ _ _ _ A) as (I & _ & E & _).
  split; [exact A|]. split; [exact I | now apply E].
Defined.

(** C10, the claim as stated fails: when the clock ticks between the two
    readings, the [id] is not the string of the [timestamp]. *)
Lemma id_differs_from_timestamp :
  exists r,
    attempt picture camry_reply 1700000000000 1700000000001 = Ok r /\
    id r = "1700000000000" /\
    Number_toString (timestamp r) = "1700000000001" /\
    id r <> Number_toString (timestamp r).
Proof.
  eexists. split; [vm_compute; reflexivity|]. split; [reflexivity|].
  split; [reflexivity|]. vm_compute. discriminate.
Qed.

(** ** The updaters on a well-formed history, and the stored entry *)

Section Sessions.

Context {json : JSON}.

Lemma Forall_firstn_readable (n : nat) (l : list JSValue) :
  Forall readable l -> Forall readable (firstn n l).
Proof.
  intros H. revert n; induction H as [|x l Hx _ IH]; intros [|n]; simpl; auto.
Qed.

Lemma Forall_others_readable (i : string) (l : list JSValue) :
  Forall readable l -> Forall readable (others i l).
Proof.
  unfold others. induction 1 as [|x l Hx _ IH]; simpl; auto.
  destruct (has_id i x); simpl; auto.
Qed.

Lemma updater_well_formed (m : Mutation) (h : JSValue) :
  well_formed h -> exists h', updater m h = Ok h' /\ well_formed h'.
Proof.
  intros (l & -> & F). destruct m as [r|i|]; cbn [updater].
  - rewrite prepend_array. eexists. split; [reflexivity|].
    exists (firstn 10 (object_of r :: l)). split; [reflexivity|].
    apply Forall_firstn_readable. constructor; [apply readable_object_of | exact F].
  - rewrite (without_array i l F). eexists. split; [reflexivity|].
    exists (others i l). split; [reflexivity | now apply Forall_others_readable].
  - eexists. split; [reflexivity|]. exists []. now split.
Qed.

Lemma filterM_returns (f : JSValue -> outcome bool) (l kept : list JSValue) :
  filterM f l = Ok kept -> Forall (fun x => exists b, f x = Ok b) l.
Proof.
  revert kept; induction l as [|x l IH]; cbn [filterM]; intros kept H; [constructor|].
  destruct (f x) as [b|] eqn:E; cbn [bind] in H; [|discriminate].
  destruct (filterM f l) as [k|] eqn:K; cbn [bind] in H; [|discriminate].
  constructor; [now exists b | now apply (IH k)].
Qed.

(** X2.  The updaters of the history never throw on an array of items
    that are neither [null] nor [undefined]: every sequence of prepends,
    removals and clears returns, and returns such an array.  The
    condition is the exact one for a removal: on an array it returns if
    and only if none of the items is [null] or [undefined]. *)
Theorem updaters_never_throw (ms : list Mutation) (h : JSValue) :
  well_formed h ->
  (exists h', mutate ms h = Ok h' /\ well_formed h') /\
  (forall i l, (exists h', without i (JArr l) = Ok h') <-> Forall readable l).
Proof.
  intros W. split.
  - revert h W; induction ms as [|m ms IH]; intros h W; cbn [mutate].
    + now exists h.
    + destruct (updater_well_formed m h W) as (h1 & E & W1). rewrite E. cbn [bind].
      now apply IH.
  - intros i l. split.
    + intros (h' & E). unfold without, array_filter in E.
      match type of E with
      | bind ?m _ = _ => destruct m as [kept|] eqn:F; [|discriminate]
      end.
      apply filterM_returns in F. eapply Forall_impl; [|exact F].
      intros x (b & B). unfold readable.
      destruct (getProp x "id") as [v|]; [now exists v | discriminate].
    + intros F. rewrite (without_array i l F). now eexists.
Qed.

Lemma step_in_sync (w w' : World) (ev : Event) :
  storage w = saveHistory (app w) -> step w ev = Some w' ->
  storage w' = saveHistory (app w').
Proof.
  intros I.
  assert (K : forall acts calls,
             existsb sets_history acts = false -> stored (storage w) acts = storage w ->
             react w acts calls = Some w' -> storage w' = saveHistory (app w')).
  { intros acts calls H St R. destruct (react_frame w w' acts calls H R) as [Eh Es].
    rewrite Es, St, I. unfold saveHistory. now rewrite Eh. }
  assert (S : forall acts calls,
             existsb sets_history acts = true ->
             react w acts calls = Some w' -> storage w' = saveHistory (app w')).
  { intros acts calls H R. unfold react in R.
    destruct (updates (app w) acts); [|discriminate]. rewrite H in R.
    now injection R as <-. }
  destruct ev as [read| | |i reply now1 now2|confirmed|i]; cbn [step]; intros H.
  - refine (K _ _ _ _ H); reflexivity.
  - destruct (image_shown (app w)); [|now injection H as <-].
    refine (K _ _ _ _ H); reflexivity.
  - destruct (image_shown (app w) && negb (isProcessing (app w)));
      [|now injection H as <-].
    destruct (processImage (app w)) as [[img acts]|] eqn:P; [|now injection H as <-].
    apply processImage_actions in P as [_ ->]. refine (K _ _ _ _ H); reflexivity.
  - destruct (nth_error (outstanding w) i) as [img|]; [|now injection H as <-].
    destruct (settled_cases img reply now1 now2) as [(r & _ & E)|(e & _ & E)];
      rewrite E in H.
    + refine (S _ _ _ H); reflexivity.
    + refine (K _ _ _ _ H); reflexivity.
  - destruct (history_shown (app w)); [|now injection H as <-].
    destruct confirmed.
    + refine (S _ _ _ H); reflexivity.
    + refine (K _ _ _ _ H); reflexivity.
  - destruct (deletable (app w) i); [|now injection H as <-].
    refine (S _ _ _ H); reflexivity.
Qed.

(** X1.  In every session the stored entry is what the save effect writes
    for the history in memory: the two are in step after the load and
    after every event, a confirmed clear included. *)
Theorem storage_in_sync (saved : option string) (evs : list Event) (w : World) :
  session saved evs = Some w ->
  storage w = saveHistory (app w) /\ storage w <> None.
Proof.
  unfold session. destruct (mount saved) as [w0|] eqn:M; [|discriminate]. intros R.
  assert (I : storage w = saveHistory (app w)).
  { assert (I0 : storage w0 = saveHistory (app w0)).
    { destruct (mount_cases saved) as [(t & v & _ & _ & _ & E)|[_ E]];
        rewrite E in M; now injection M as <-. }
    clear M. revert w0 I0 R; induction evs as [|ev evs IH]; intros w0 I0 R.
    - now injection R as <-.
    - cbn [run] in R. destruct (step w0 ev) as [w1|] eqn:S; [|discriminate].
      apply (IH w1); [|exact R]. now apply (step_in_sync w0 w1 ev). }
  split; [exact I|]. rewrite I. unfold saveHistory.
  destruct (JSON_stringify (history (app w))); discriminate.
Qed.

(** X3.  The bound of ten holds from one session to the next when the
    stored entry is the program's own: if what a first session, begun on
    no entry, has stored parses back to the history it had in memory, a
    second session opened on that entry has at most ten items at all
    times. *)
Theorem cap_across_sessions
  (evs evs' : list Event) (w w' : World) (t : string) :
  session None evs = Some w ->
  storage w = Some t -> t <> "" ->
  JSON_parse t = Ok (history (app w)) ->
  session (Some t) evs' = Some w' ->
  capped 10 (history (app w)) /\ capped 10 (history (app w')).
Proof.
  unfold session. intros S St T P S'.
  destruct (mount None) as [w0|] eqn:M; [|discriminate].
  assert (C : capped 10 (history (app w))).
  { apply (run_capped 10 evs w0 w); [lia | | exact S].
    destruct (mount_cases None) as [(t0 & v & [=] & _)|[_ E]].
    rewrite E in M. injection M as <-. exists []. split; [reflexivity | simpl; lia]. }
  split; [exact C|].
  destruct (mount (Some t)) as [w1|] eqn:M'; [|discriminate].
  apply (run_capped 10 evs' w1 w'); [lia | | exact S'].
  now rewrite (mount_restores (Some t) w1 t _ M' eq_refl T P).
Qed.

End Sessions.

Lemma updaters_never_throw_witness :
  mutate [Prepended (scan 3); Removed "2"; Removed "9"; Cleared; Prepended (scan 4)]
         (JArr (map object_of (scans 2 1)))
  = Ok (JArr [object_of (scan 4)]) /\
  (exists h', without "1" (JArr (map object_of (scans 2 1))) = Ok h').
Proof.
  assert (W : well_formed (JArr (map object_of (scans 2 1)))).
  { eexists. split; [reflexivity|]. repeat constructor; apply readable_object_of. }
  destruct (updaters_never_throw
              [Prepended (scan 3); Removed "2"; Removed "9"; Cleared; Prepended (scan 4)]
              _ W) as ((h' & E & _) & R).
  split.
  - rewrite E. vm_compute in E. now injection E as <-.
  - apply R. repeat constructor; apply readable_object_of.
Defined.

Lemma storage_in_sync_witness :
  storage (waiting (scans 1 1700000000000)) = Some (stored_scans 1).
Proof.
  rewrite (proj1 (storage_in_sync (Some (stored_scans 1)) one_call_out
                    (waiting (scans 1 1700000000000)) (session_waiting 1 (le_S _ _ (le_n 1))))).
  vm_compute. reflexivity.
Defined.

Lemma cap_across_sessions_witness :
  exists w w',
    session None (one_call_out ++ [CallSettled 0 camry_reply 1700000000000 1700000000000])
    = Some w /\
    storage w = Some (stored_scans 1) /\
    session (Some (stored_scans 1))
            (one_call_out ++ [CallSettled 0 camry_reply 1700000000001 1700000000001])
    = Some w' /\
    array_length (history (app w')) = Some 2 /\
    capped 10 (history (app w')).
Proof.
  eexists. eexists. split; [vm_compute; reflexivity|]. split; [vm_compute; reflexivity|].
  split; [vm_compute; reflexivity|]. split; [reflexivity|].
  refine (proj2 (cap_across_sessions
                   (one_call_out ++ [CallSettled 0 camry_reply 1700000000000 1700000000000])
                   (one_call_out ++ [CallSettled 0 camry_reply 1700000000001 1700000000001])
                   _ _ (stored_scans 1) _ _ _ _ _)).
  - vm_compute. reflexivity.
  - vm_compute. reflexivity.
  - vm_compute. discriminate.
  - vm_compute. reflexivity.
  - vm_compute. reflexivity.
Defined.

(** * More of the program *)

(** ** What the request carries *)

Lemma split_nonempty (sep : ascii) (s : string) : split sep s <> [].
Proof.
  destruct s as [|c r]; cbn [split]; [discriminate|].
  destruct (Ascii.eqb c sep); [discriminate|].
  destruct (split sep r); discriminate.
Qed.

Lemma split_no_comma (s : string) : has_comma s = false -> split "," s = [s].
Proof.
  induction s as [|c r IH]; cbn [split has_comma]; [reflexivity|].
  intros H. apply orb_false_elim in H as [Hc Hr]. rewrite Hc, (IH Hr). reflexivity.
Qed.

Lemma split_at_comma (a b : string) :
  has_comma a = false -> split "," (a ++ String "," b)%string = a :: split "," b.
Proof.
  induction a as [|c r IH]; cbn [split has_comma append]; [reflexivity|].
  intros H. apply orb_false_elim in H as [Hc Hr]. rewrite Hc, (IH Hr). reflexivity.
Qed.

(** Joining the pieces with the separator gives the string back. *)
Lemma split_join (s : string) : RefJSON.join (split "," s) = s.
Proof.
  induction s as [|c r IH]; [reflexivity|]. cbn [split].
  destruct (Ascii.eqb c ",") eqn:E.
  - apply Ascii.eqb_eq in E. subst c.
    pose proof (split_nonempty "," r) as N.
    destruct (split "," r) as [|piece pieces]; [contradiction|].
    cbn [RefJSON.join]. cbn [RefJSON.join] in IH. now rewrite IH.
  - pose proof (split_nonempty "," r) as N.
    destruct (split "," r) as [|piece pieces]; [contradiction|].
    destruct pieces as [|piece' pieces]; cbn [RefJSON.join append] in *; now rewrite IH.
Qed.

(** X4.  The request that [processImage] issues carries, as its data, the
    piece of the image string between its first and its second comma:
    nothing ([undefined]) when the string has no comma, the whole payload
    for a data URL whose payload has none, and no more than the first
    piece of a payload that has one.  The type it declares is
    [image/jpeg], whatever type the data URL names. *)
Theorem request_data (header payload : string) :
  has_comma header = false ->
  has_comma payload = false ->
  Request.data (issued_request (header ++ "," ++ payload)%string) = Some payload /\
  (forall more,
      Request.data (issued_request (header ++ "," ++ payload ++ "," ++ more)%string)
      = Some payload) /\
  Request.data (issued_request header) = None /\
  Request.mimeType (issued_request (header ++ "," ++ payload)%string) = "image/jpeg"%string.
Proof.
  intros H P. unfold issued_request, recognizePlate_request, base64Data.
  cbn [Request.data Request.mimeType append].
  split; [|split; [|split]].
  - now rewrite (split_at_comma _ _ H), (split_no_comma _ P).
  - intros more. now rewrite (split_at_comma _ _ H), (split_at_comma _ _ P).
  - now rewrite (split_no_comma _ H).
  - reflexivity.
Qed.

Lemma request_data_witness :
  Request.data (issued_request other_picture) = Some "BBBB"%string /\
  Request.mimeType (issued_request other_picture) = "image/jpeg"%string.
Proof.
  destruct (request_data "data:image/png;base64" "BBBB" eq_refl eq_refl) as (D & _ & _ & M).
  split; [exact D | exact M].
Defined.

(** ** What holds in every session *)

Section Invariants.

Context {json : JSON}.

(** A property that mounting establishes and every event keeps holds in
    every session. *)
Lemma session_invariant (P : World -> Prop) :
  (forall saved w, mount saved = Some w -> P w) ->
  (forall w ev w', P w -> step w ev = Some w' -> P w') ->
  forall saved evs w, session saved evs = Some w -> P w.
Proof.
  intros M S saved evs w. unfold session.
  destruct (mount saved) as [w0|] eqn:E; [|discriminate].
  apply M in E. revert w0 E. induction evs as [|ev evs IH]; intros w0 E R.
  - now injection R as <-.
  - cbn [run] in R. destruct (step w0 ev) as [w1|] eqn:T; [|discriminate].
    apply (IH w1); [now apply (S w0 ev)|exact R].
Qed.

(** What the actions make of [error]: the last value set, if any. *)
Lemma updates_error (acts : list Action) (s s' : AppState) :
  updates s acts = Ok s' ->
  error s' =
  fold_left (fun e a => match a with setError e' => e' | _ => e end) acts (error s).
Proof.
  revert s; induction acts as [|a acts IH]; intros s H.
  - now injection H as <-.
  - cbn [updates bind] in H. destruct (update s a) as [t|] eqn:E; [|discriminate].
    cbn [bind] in H. rewrite (IH t H). cbn [fold_left]. f_equal.
    destruct a; cbn [update bind] in E;
      try (injection E as <-; reflexivity).
    destruct (f (history s)); [injection E as <-; reflexivity | discriminate].
Qed.

Lemma react_error (w w' : World) (acts : list Action) (calls : list string) :
  react w acts calls = Some w' ->
  error (app w') =
  fold_left (fun e a => match a with setError e' => e' | _ => e end) acts (error (app w)).
Proof.
  unfold react. destruct (updates (app w) acts) as [s|] eqn:E; [|discriminate].
  intros [= <-]. now apply updates_error.
Qed.

Lemma step_error_shown (w w' : World) (ev : Event) :
  error_shown w -> step w ev = Some w' -> error_shown w'.
Proof.
  intros [A B].
  assert (K : forall acts calls,
             react w acts calls = Some w' ->
             fold_left (fun e a => match a with setError e' => e' | _ => e end)
                       acts (error (app w)) = None ->
             error_shown w').
  { intros acts calls R F. pose proof (react_error _ _ _ _ R) as E. rewrite F in E.
    split; [now left | now intros _]. }
  assert (Q : forall acts calls,
             react w acts calls = Some w' ->
             fold_left (fun e a => match a with setError e' => e' | _ => e end)
                       acts (error (app w)) = error (app w) ->
             fold_left (fun b a => match a with setIsProcessing b' => b' | _ => b end)
                       acts (isProcessing (app w)) = isProcessing (app w) ->
             error_shown w').
  { intros acts calls R F G. pose proof (react_error _ _ _ _ R) as E.
    pose proof (react_isProcessing _ _ _ _ R) as I. rewrite F in E. rewrite G in I.
    unfold error_shown. now rewrite E, I. }
  destruct ev as [read| | |i reply now1 now2|confirmed|i]; cbn [step]; intros H.
  - now apply (K _ _ H).
  - destruct (image_shown (app w)); [now apply (K _ _ H) | now injection H as <-].
  - destruct (image_shown (app w) && negb (isProcessing (app w)));
      [|now injection H as <-].
    destruct (processImage (app w)) as [[img acts]|] eqn:P; [|now injection H as <-].
    apply processImage_actions in P as [_ ->]. now apply (K _ _ H).
  - destruct (nth_error (outstanding w) i) as [img|]; [|now injection H as <-].
    pose proof (react_error _ _ _ _ H) as E.
    pose proof (react_isProcessing _ _ _ _ H) as I.
    destruct (settled_cases img reply now1 now2) as [(r & _ & T)|(e & _ & T)];
      rewrite T in E, I; cbn [fold_left] in E, I; unfold error_shown; rewrite E, I.
    + split; [exact A | discriminate].
    + split; [now right | discriminate].
  - destruct (history_shown (app w)); [|now injection H as <-].
    destruct confirmed; now apply (Q _ _ H).
  - destruct (deletable (app w) i); [|now injection H as <-].
    now apply (Q _ _ H).
Qed.

(** X5.  In every session the error shown is nothing or the one message of
    the [catch] block, never what the service or the parser reported; and
    while a recognition is in progress no error is shown. *)
Theorem error_is_the_fixed_message (saved : option string) (evs : list Event) (w : World) :
  session saved evs = Some w ->
  (error (app w) = None \/ error (app w) = Some failure_message) /\
  (isProcessing (app w) = true -> error (app w) = None).
Proof.
  apply (session_invariant error_shown).
  - intros s w0 M. destruct (mount_cases s) as [(t & v & _ & _ & _ & E)|[_ E]];
      rewrite E in M; injection M as <-; (split; [now left | reflexivity]).
  - intros w0 ev w1. apply step_error_shown.
Qed.

(** What the settling of a call does not change, and what changes only
    then, by the outcome of the attempt. *)
Lemma attempt_imageUrl (img : string) (reply : ServiceReply) (now1 now2 : Z)
  (r : ScanResult) :
  attempt img reply now1 now2 = Ok r -> imageUrl r = img.
Proof.
  unfold attempt. destruct (recognizePlate reply) as [data|]; cbn [bind]; [|discriminate].
  unfold newResult.
  repeat match goal with
         | |- context [getProp ?d ?k] => destruct (getProp d k); cbn [bind]; [|discriminate]
         end.
  now intros [= <-].
Qed.

(** While no call settles, the flag stays set and the call outstanding. *)
Lemma run_in_flight (evs : list Event) (w w' : World) (img : string) :
  isProcessing (app w) = true -> outstanding w = [img] ->
  forallb (fun ev => negb (settles ev)) evs = true ->
  run w evs = Some w' ->
  isProcessing (app w') = true /\ outstanding w' = [img].
Proof.
  revert w; induction evs as [|ev evs IH]; intros w P O F R.
  - injection R as <-. now split.
  - cbn [run] in R. destruct (step w ev) as [w1|] eqn:S; [|discriminate].
    cbn [forallb] in F. apply andb_prop in F as [Fe F].
    destruct (step_flight w w1 ev S)
      as [[P1 O1] | [(_ & Q & _) | (i & g & reply & n1 & n2 & -> & _)]].
    + apply (IH w1); [congruence | congruence | exact F | exact R].
    + congruence.
    + discriminate.
Qed.

(** X6.  A record carries the image that was shown when the recognition
    was requested: whatever the user does while the call is outstanding,
    choosing another picture or discarding this one, the record made on a
    success has the image of the click as its [imageUrl], and that image
    is not empty. *)
Theorem record_keeps_clicked_image
  (w0 w w' : World) (img : string) (evs : list Event)
  (reply : ServiceReply) (now1 now2 : Z) (r : ScanResult) :
  single_flight w0 ->
  isProcessing (app w0) = false ->
  image (app w0) = Some img -> img <> ""%string ->
  run w0 (RecognizeClicked :: evs) = Some w ->
  forallb (fun ev => negb (settles ev)) evs = true ->
  attempt img reply now1 now2 = Ok r ->
  step w (CallSettled 0 reply now1 now2) = Some w' ->
  result (app w') = Some r /\ imageUrl r = img /\ imageUrl r <> ""%string.
Proof.
  intros I P Im N R F A S.
  cbn [run] in R. destruct (step w0 RecognizeClicked) as [w1|] eqn:C; [|discriminate].
  assert (O0 : outstanding w0 = []) by (destruct I as [[_ O]|[Q _]]; [exact O | congruence]).
  assert (T : image_shown (app w0) = true).
  { unfold image_shown. rewrite Im. cbn [falsy]. destruct (img =? "")%string eqn:E;
      [apply String.eqb_eq in E; contradiction | reflexivity]. }
  destruct (step_flight w0 w1 RecognizeClicked C)
    as [[P1 O1] | [(_ & _ & P1 & g & Ig & O1) | (i & g & p & n1 & n2 & [=] & _)]].
  - exfalso. cbn [step] in C. rewrite T, P in C. cbn [andb negb] in C.
    unfold processImage in C. rewrite Im in C. cbn [falsy] in C.
    destruct (img =? "")%string eqn:E; [apply String.eqb_eq in E; contradiction|].
    pose proof (react_isProcessing _ _ _ _ C) as Q. cbn [fold_left] in Q. congruence.
  - assert (g = img) by congruence. subst g. rewrite O0 in O1. cbn [List.app] in O1.
    destruct (run_in_flight evs w1 w img P1 O1 F R) as [Pw Ow].
    assert (Nth : nth_error (outstanding w) 0 = Some img) by now rewrite Ow.
    pose proof (attempt_imageUrl _ _ _ _ _ A) as U.
    destruct (prepend r (history (app w))) as [h|e] eqn:Pr.
    + rewrite (settle_success w 0 img reply now1 now2 r h Nth A Pr) in S.
      injection S as <-. cbn [app result]. repeat split; congruence.
    + exfalso. cbn [step] in S. rewrite Nth in S. unfold processImage_settled in S.
      rewrite A in S. turn S. rewrite Pr in S. discriminate.
Qed.

(** X7.  The history and the stored entry change only when a recognition
    succeeds, when a clear is confirmed, or when an item is deleted:
    choosing or discarding a picture, requesting a recognition, a failed
    attempt and a declined clear leave both as they were. *)
Theorem history_changes_only_by (w w' : World) (ev : Event) :
  step w ev = Some w' ->
  history (app w') <> history (app w) \/ storage w' <> storage w ->
  (exists i img reply now1 now2 r,
      ev = CallSettled i reply now1 now2 /\
      nth_error (outstanding w) i = Some img /\
      attempt img reply now1 now2 = Ok r) \/
  ev = ClearClicked true \/
  (exists i, ev = DeleteClicked i).
Proof.
  intros S D.
  assert (K : forall acts calls,
             existsb sets_history acts = false -> stored (storage w) acts = storage w ->
             react w acts calls = Some w' -> False).
  { intros acts calls H St R. destruct (react_frame w w' acts calls H R) as [Eh Es].
    rewrite St in Es. destruct D as [D|D]; contradiction. }
  assert (Z0 : w' = w -> False) by (intros ->; destruct D as [D|D]; now apply D).
  destruct ev as [read| | |i reply now1 now2|confirmed|i]; cbn [step] in S.
  - exfalso. refine (K _ _ _ _ S); reflexivity.
  - exfalso. destruct (image_shown (app w)); [|injection S as <-; now apply Z0].
    refine (K _ _ _ _ S); reflexivity.
  - exfalso.
    destruct (image_shown (app w) && negb (isProcessing (app w)));
      [|injection S as <-; now apply Z0].
    destruct (processImage (app w)) as [[img acts]|] eqn:P;
      [|injection S as <-; now apply Z0].
    apply processImage_actions in P as [_ ->]. refine (K _ _ _ _ S); reflexivity.
  - destruct (nth_error (outstanding w) i) as [img|] eqn:N;
      [|exfalso; injection S as <-; now apply Z0].
    destruct (settled_cases img reply now1 now2) as [(r & A & T)|(e & _ & T)].
    + left. now exists i, img, reply, now1, now2, r.
    + exfalso. rewrite T in S. refine (K _ _ _ _ S); reflexivity.
  - destruct (history_shown (app w)); [|exfalso; injection S as <-; now apply Z0].
    destruct confirmed; [now right; left|].
    exfalso. refine (K _ _ _ _ S); reflexivity.
  - right; right. now exists i.
Qed.

End Invariants.

Lemma error_is_the_fixed_message_witness :
  exists w,
    session None (one_call_out ++ [CallSettled 0 CallRejected 1700000000000 1700000000000])
    = Some w /\
    error (app w) = Some failure_message.
Proof.
  assert (S : session None
                (one_call_out ++ [CallSettled 0 CallRejected 1700000000000 1700000000000])
              = Some {| app := {| image := Some picture; isProcessing := false;
                                  result := None; history := JArr [];
                                  error := Some failure_message |};
                        storage := Some "[]"%string; outstanding := [] |})
    by (vm_compute; reflexivity).
  eexists. split; [exact S|].
  destruct (proj1 (error_is_the_fixed_message _ _ _ S)) as [E|E];
    [discriminate E | exact E].
Defined.

Lemma record_keeps_clicked_image_witness :
  exists w w' r,
    run {| app := {| image := Some picture; isProcessing := false; result := None;
                     history := JArr []; error := None |};
           storage := Some "[]"%string; outstanding := [] |}
        [RecognizeClicked; FileRead (Some other_picture)] = Some w /\
    image (app w) = Some other_picture /\
    step w (CallSettled 0 camry_reply 1700000000000 1700000000000) = Some w' /\
    result (app w') = Some r /\
    imageUrl r = picture.
Proof.
  eexists. eexists. exists (scan 1700000000000).
  split; [vm_compute; reflexivity|]. split; [reflexivity|].
  split; [vm_compute; reflexivity|].
  refine (let H := record_keeps_clicked_image
                     {| app := {| image := Some picture; isProcessing := false;
                                  result := None; history := JArr []; error := None |};
                        storage := Some "[]"%string; outstanding := [] |}
                     _ _ picture [FileRead (Some other_picture)] camry_reply
                     1700000000000 1700000000000 (scan 1700000000000)
                     _ eq_refl eq_refl _ _ eq_refl _ _ in
          conj (proj1 H) (proj1 (proj2 H))).
  - now left.
  - discriminate.
  - vm_compute. reflexivity.
  - vm_compute. reflexivity.
  - vm_compute. reflexivity.
Defined.

Lemma history_changes_only_by_witness :
  exists w',
    step (waiting []) (CallSettled 0 camry_reply 1700000000000 1700000000000) = Some w' /\
    history (app w') <> history (app (waiting [])) /\
    exists r, attempt picture camry_reply 1700000000000 1700000000000 = Ok r.
Proof.
  eexists. split; [vm_compute; reflexivity|]. split; [discriminate|].
  refine (match history_changes_only_by (waiting [])
                  _ (CallSettled 0 camry_reply 1700000000000 1700000000000) _ _ with
          | or_introl (ex_intro _ i (ex_intro _ img (ex_intro _ reply (ex_intro _ n1
              (ex_intro _ n2 (ex_intro _ r (conj E (conj N A)))))))) => _
          | or_intror (or_introl E) => _
          | or_intror (or_intror (ex_intro _ i E)) => _
          end).
  - vm_compute. reflexivity.
  - left. discriminate.
  - injection E as <- <- <- <-. injection N as <-. now exists r.
  - discriminate E.
  - discriminate E.
Defined.

(** ** How the updaters of the history compose *)

Lemma firstn_cons_firstn {A : Type} (n : nat) (x : A) (l : list A) :
  firstn (S n) (x :: firstn (S n) l) = firstn (S n) (x :: l).
Proof.
  rewrite !firstn_cons. f_equal. rewrite firstn_firstn. f_equal. lia.
Qed.

Lemma prepend_each_from_ten (rs : list ScanResult) (l : list JSValue) :
  prepend_each rs (JArr (firstn 10 l))
  = Ok (JArr (firstn 10 (rev (map object_of rs) ++ l))).
Proof.
  revert l; induction rs as [|r rs IH]; intros l; cbn [prepend_each map rev].
  - reflexivity.
  - rewrite prepend_array. cbn [bind]. rewrite firstn_cons_firstn.
    rewrite (IH (object_of r :: l)). now rewrite <- app_assoc.
Qed.

(** X8.  Recognitions that succeed one after another leave the ten newest
    items, the newest first: trimming to ten at each prepend gives what
    one trim at the end would give. *)
Theorem prepends_keep_the_newest (r : ScanResult) (rs : list ScanResult) (l : list JSValue) :
  prepend_each (r :: rs) (JArr l)
  = Ok (JArr (firstn 10 (rev (map object_of (r :: rs)) ++ l))) /\
  (List.length l <= 10 ->
   forall rs', prepend_each rs' (JArr l)
               = Ok (JArr (firstn 10 (rev (map object_of rs') ++ l)))).
Proof.
  split.
  - cbn [prepend_each]. rewrite prepend_array. cbn [bind].
    rewrite (prepend_each_from_ten rs (object_of r :: l)).
    cbn [map rev]. now rewrite <- app_assoc.
  - intros H rs'. rewrite <- (firstn_all2 (n := 10) l) at 1 by exact H.
    apply prepend_each_from_ten.
Qed.

Lemma matching_others (i : string) (l : list JSValue) : matching i (others i l) = [].
Proof.
  unfold matching, others. induction l as [|x l IH]; [reflexivity|]. cbn [filter].
  destruct (has_id i x) eqn:E; cbn [negb filter]; [exact IH|]. now rewrite E.
Qed.

Lemma others_others (i j : string) (l : list JSValue) :
  others i (others j l) = others j (others i l).
Proof.
  unfold others. induction l as [|x l IH]; [reflexivity|]. cbn [filter].
  destruct (has_id j x) eqn:Ej, (has_id i x) eqn:Ei; cbn [negb filter];
    rewrite ?Ej, ?Ei; cbn [negb]; now rewrite IH.
Qed.

(** X9.  Deletions compose as they should: once an [id] is deleted no item
    has it, deleting it again changes nothing, and two deletions give the
    same history in either order. *)
Theorem deletions_compose (i j : string) (l : list JSValue) :
  Forall readable l ->
  without i (JArr l) = Ok (JArr (others i l)) /\
  matching i (others i l) = [] /\
  (h <- without i (JArr l) ;; without i h) = without i (JArr l) /\
  (h <- without i (JArr l) ;; without j h) = (h <- without j (JArr l) ;; without i h).
Proof.
  intros R.
  assert (Ri : Forall readable (others i l)) by now apply Forall_others_readable.
  assert (Rj : Forall readable (others j l)) by now apply Forall_others_readable.
  split; [now apply without_array|]. split; [apply matching_others|].
  rewrite !(without_array _ l R). cbn [bind].
  rewrite (without_array i _ Ri), (without_array j _ Ri), (without_array i _ Rj).
  split.
  - now rewrite (others_all i _ (matching_others i l)).
  - now rewrite others_others.
Qed.

Lemma has_id_object_of (r : ScanResult) : has_id (id r) (object_of r) = true.
Proof. unfold has_id. cbn. apply String.eqb_refl. Qed.

(** X10.  Deleting the scan just made gives back the history as it was
    when that had fewer than ten items, none of them with the same [id];
    when it had ten or more, what the prepend dropped stays dropped: the
    first nine remain. *)
Theorem delete_after_prepend (r : ScanResult) (l : list JSValue) :
  Forall readable l ->
  matching (id r) l = [] ->
  (h <- prepend r (JArr l) ;; without (id r) h) = Ok (JArr (firstn 9 l)) /\
  (List.length l <= 9 -> (h <- prepend r (JArr l) ;; without (id r) h) = Ok (JArr l)).
Proof.
  intros R M.
  assert (E : (h <- prepend r (JArr l) ;; without (id r) h) = Ok (JArr (firstn 9 l))).
  { rewrite prepend_array. cbn [bind].
    assert (R9 : Forall readable (firstn 9 l)) by now apply Forall_firstn_readable.
    change (firstn 10 (object_of r :: l)) with (object_of r :: firstn 9 l).
    rewrite without_array by (constructor; [apply readable_object_of | exact R9]).
    unfold others. cbn [filter]. rewrite has_id_object_of. cbn [negb].
    do 2 f_equal. apply others_all.
    unfold matching in *. clear -M. revert M.
    generalize 9. induction l as [|x l IH]; intros n; [now destruct n|].
    cbn [filter]. destruct (has_id (id r) x) eqn:H; [discriminate|].
    intros M. destruct n; [reflexivity|]. cbn [firstn filter]. rewrite H. now apply IH. }
  split; [exact E|]. intros H. rewrite E. now rewrite firstn_all2.
Qed.

Lemma prepends_keep_the_newest_witness :
  prepend_each (scans 12 1) (JArr [])
  = Ok (JArr (map object_of (firstn 10 (rev (scans 12 1))))).
Proof.
  exact (proj1 (prepends_keep_the_newest (scan 12) (scans 11 1) [])).
Defined.

Lemma deletions_compose_witness :
  (h <- without "2" (JArr (map object_of (scans 3 1))) ;; without "3" h)
  = Ok (JArr [object_of (scan 1)]) /\
  (h <- without "3" (JArr (map object_of (scans 3 1))) ;; without "2" h)
  = Ok (JArr [object_of (scan 1)]).
Proof.
  assert (R : Forall readable (map object_of (scans 3 1)))
    by (repeat constructor; apply readable_object_of).
  destruct (deletions_compose "2" "3" _ R) as (_ & _ & _ & E).
  split; [reflexivity|]. rewrite <- E. reflexivity.
Defined.

Lemma delete_after_prepend_witness :
  (h <- prepend (scan 11) (JArr (map object_of (scans 10 1))) ;; without "11" h)
  = Ok (JArr (map object_of (scans 9 2))).
Proof.
  assert (R : Forall readable (map object_of (scans 10 1)))
    by (repeat constructor; apply readable_object_of).
  exact (proj1 (delete_after_prepend (scan 11) _ R eq_refl)).
Defined.

(** ** Replies of another shape *)

Section Shapes.

Context {json : JSON}.

Lemma reads_strings (data : JSValue) (fields : list JSValue) (names : list string) :
  map Ok fields = map (getProp data) names ->
  (Forall is_string fields <->
   Forall (fun name => exists s, getProp data name = Ok (JStr s)) names).
Proof.
  revert names; induction fields as [|v fields IH]; intros [|name names] E;
    try discriminate.
  - split; constructor.
  - cbn [map] in E. injection E as Ev E. split; intros H; inversion H as [|? ? Hv Hl]; subst.
    + constructor; [destruct Hv as [s ->]; now exists s | now apply (IH names E)].
    + constructor; [|now apply (IH names E)].
      destruct Hv as [s Hs]. rewrite Hs in Ev. injection Ev as ->. now exists s.
Qed.

(** X11.  The record is complete exactly when the reply has what the
    request's schema requires: each of the seven fields of the record is a
    string if and only if each of the names that the schema lists as
    required reads as a string in the parsed reply. *)
Theorem record_complete_iff_required
  (img : string) (now1 now2 : Z) (data : JSValue) :
  Forall (fun name => exists s, getProp data name = Ok (JStr s))
         (Request.required (issued_request img)) <->
  exists r, newResult img now1 now2 data = Ok r /\ Forall is_string (reply_fields r).
Proof.
  cbn [issued_request recognizePlate_request Request.required]. split.
  - intros H.
    assert (N : data <> JNull /\ data <> JUndefined).
    { inversion H as [|? ? [s Hs] _]; subst. split; intros ->; discriminate. }
    destruct (newResult_reads img now1 now2 data (proj1 N) (proj2 N))
      as (r & E & _ & _ & _ & F).
    exists r. split; [exact E|]. now apply (reads_strings data _ required F).
  - intros (r & E & S).
    assert (N : data <> JNull /\ data <> JUndefined)
      by (split; intros ->; discriminate).
    destruct (newResult_reads img now1 now2 data (proj1 N) (proj2 N))
      as (r0 & E0 & _ & _ & _ & F).
    rewrite E in E0. injection E0 as <-. now apply (reads_strings data _ required F).
Qed.

(** X12.  A reply that parses to [null] is reported as a failed
    recognition, like a missing one; a reply that parses to a number, a
    string, a boolean or an array is taken as a success, and a record with
    all seven fields [undefined] becomes the result and the first item of
    the history. *)
Theorem replies_of_another_shape
  (w : World) (i : nat) (img t : string) (data : JSValue) (now1 now2 : Z)
  (l : list JSValue) :
  nth_error (outstanding w) i = Some img ->
  t <> ""%string ->
  JSON_parse t = Ok data ->
  history (app w) = JArr l ->
  exists w',
    step w (CallSettled i (Response (Some t)) now1 now2) = Some w' /\
    isProcessing (app w') = false /\
    (data = JNull ->
     error (app w') = Some failure_message /\
     result (app w') = result (app w) /\
     history (app w') = history (app w)) /\
    (primitive_or_array data = true ->
     error (app w') = error (app w) /\
     result (app w') = Some (blank img now1 now2) /\
     history (app w') = JArr (object_of (blank img now1 now2) :: firstn 9 l)).
Proof.
  intros N T P H.
  assert (R : recognizePlate (Response (Some t)) = Ok data)
    by (apply recognizePlate_returns; now exists t).
  destruct (attempt img (Response (Some t)) now1 now2) as [r|e] eqn:A.
  - assert (Pr : prepend r (history (app w)) = Ok (JArr (object_of r :: firstn 9 l)))
      by now rewrite H.
    rewrite (settle_success w i img _ now1 now2 r _ N A Pr).
    eexists. split; [reflexivity|]. cbn [app isProcessing error result history].
    split; [reflexivity|]. split.
    + intros ->. unfold attempt in A. rewrite R in A. discriminate.
    + intros Q. unfold attempt in A. rewrite R in A. cbn [bind] in A.
      assert (r = blank img now1 now2)
        by (destruct data; try discriminate; cbn in A; now injection A).
      subst r. now repeat split.
  - rewrite (settle_failure w i img _ now1 now2 e N A).
    eexists. split; [reflexivity|]. cbn [app isProcessing error result history].
    split; [reflexivity|]. split.
    + intros _. now repeat split.
    + intros Q. exfalso. unfold attempt in A. rewrite R in A. cbn [bind] in A.
      destruct data; try discriminate; cbn in A; discriminate.
Qed.

End Shapes.

Lemma record_complete_iff_required_witness :
  exists r,
    newResult picture 1700000000000 1700000000000
      (JObj [("plate_number", JStr "ABC123"); ("region", JStr "CA");
             ("vehicle_make", JStr "Toyota"); ("vehicle_model", JStr "Camry");
             ("vehicle_color", JStr "Blue"); ("vehicle_type", JStr "Sedan");
             ("confidence_score", JStr "High")]) = Ok r /\
    Forall is_string (reply_fields r).
Proof.
  apply (proj1 (record_complete_iff_required picture 1700000000000 1700000000000 _)).
  repeat constructor; eexists; reflexivity.
Defined.

Lemma replies_of_another_shape_witness :
  (exists w',
      step (waiting []) (CallSettled 0 (Response (Some "null"%string)) 17 17) = Some w' /\
      error (app w') = Some failure_message /\ history (app w') = JArr []) /\
  (exists w',
      step (waiting []) (CallSettled 0 (Response (Some "42"%string)) 17 17) = Some w' /\
      result (app w') = Some (blank picture 17 17) /\
      history (app w') = JArr [object_of (blank picture 17 17)]).
Proof.
  split.
  - destruct (replies_of_another_shape (waiting []) 0 picture "null" JNull 17 17 []
                eq_refl) as (w' & S & _ & F & _);
      [discriminate | reflexivity | reflexivity |].
    exists w'. destruct (F eq_refl) as (E & _ & H). now repeat split.
  - destruct (replies_of_another_shape (waiting []) 0 picture "42" (JNum 42 0) 17 17 []
                eq_refl) as (w' & S & _ & _ & F);
      [discriminate | reflexivity | reflexivity |].
    exists w'. destruct (F eq_refl) as (_ & R & H). now repeat split.
Defined.
